(** * Paprika prototype: Merkle node header codec and node constructors

    A shallow embedding of [src/Paprika/prototype/merkle_node.c].

    The C file declares [typedef char byte], a three-valued [enum NodeType],
    two header masks, the [MerkleNode] struct and five functions: the two
    accessors [MerkleNode_IsDirty] and [MerkleNode_NodeType] and the three
    constructors [MerkleNode_newBranch], [MerkleNode_newExtension] and
    [MerkleNode_newLeaf].  The constructors call [malloc] and [memcpy], so
    they are embedded as functions that thread a block-structured memory and
    may run into undefined behaviour.  The rest of the file is a
    demonstration harness: [print_array], three test functions and [main];
    they are embedded as functions that also thread the text written to the
    standard output.

    Modelling choices, all visible in the definitions below:
    - a [byte] is the integer value of a C [char], kept in [Z].  Whether plain
      [char] is signed is implementation-defined; it is the parameter
      [char_signed] of everything that converts an [int] to a [byte];
    - [size_t] is 64 bits wide (LP64);
    - memory is a finite map from block identifiers to lists of cells, a cell
      being either a byte value or indeterminate (what [malloc] hands out);
      reading an indeterminate byte gives an unspecified value, a parameter
      of everything that reads memory byte by byte;
    - [malloc] never runs out of memory for a request of at most
      [PTRDIFF_MAX] bytes and returns [NULL] above that;
    - a memory access outside a live block is undefined behaviour and is the
      outcome [Undefined]. *)

From Stdlib Require Import ZArith Lia.
From Stdlib Require DecimalString HexadecimalString.
From stdpp Require Import gmap list strings.

Local Open Scope Z_scope.

(** ** Scalars *)

(** [typedef char byte;] : the value of a [char], as an integer. *)
Definition byte : Type := Z.

(** [typedef enum NodeType { Leaf, Extension, Branch, } NodeType;] *)
Inductive NodeType : Type :=
  | Leaf
  | Extension
  | Branch.

(** The integer value of each enumerator (C numbers them from 0). *)
Definition NodeType_val (t : NodeType) : Z :=
  match t with
  | Leaf => 0
  | Extension => 1
  | Branch => 2
  end.

(** The enumerator that has a given integer value, if there is one. *)
Definition NodeType_of_val (v : Z) : option NodeType :=
  if v =? 0 then Some Leaf
  else if v =? 1 then Some Extension
  else if v =? 2 then Some Branch
  else None.

(** [const byte IsDirtyFlag = 0b1000;] *)
Definition IsDirtyFlag : byte := 8.

(** [const byte NodeTypeFlag = 0b0110;] *)
Definition NodeTypeFlag : byte := 6.

(** ** Outcomes of a call *)

(** A call either returns a value or has undefined behaviour (a read or a
    write outside a live block, a [NULL] dereference). *)
Inductive outcome (A : Type) : Type :=
  | Returned (a : A)
  | Undefined.

Arguments Returned {A} a.
Arguments Undefined {A}.

#[global] Instance outcome_ret : MRet outcome := fun A a => Returned a.

#[global] Instance outcome_bind : MBind outcome := fun A B f o =>
  match o with
  | Returned a => f a
  | Undefined => Undefined
  end.

(** ** Memory *)

(** One byte of storage: [Some v] holds the value [v], [None] is
    indeterminate. *)
Definition cell : Type := option byte.

(** A pointer is [NULL] or an offset into a block. *)
Inductive pointer : Type :=
  | NULL
  | Ptr (b : nat) (off : Z).

(** Memory: the live blocks and their contents. *)
Abbreviation memory := (gmap nat (list cell)).

(** [n] cells starting at [p], when they all lie in one live block. *)
Definition load (m : memory) (p : pointer) (n : Z) : option (list cell) :=
  match p with
  | NULL => None
  | Ptr b off =>
      match m !! b with
      | None => None
      | Some bl =>
          if (0 <=? off) && (0 <=? n) && (off + n <=? Z.of_nat (length bl))
          then Some (take (Z.to_nat n) (drop (Z.to_nat off) bl))
          else None
      end
  end.

(** Overwrite the cells starting at [p] with [cs], when they all lie in one
    live block. *)
Definition store (m : memory) (p : pointer) (cs : list cell) : option memory :=
  match p with
  | NULL => None
  | Ptr b off =>
      match m !! b with
      | None => None
      | Some bl =>
          if (0 <=? off) && (off + Z.of_nat (length cs) <=? Z.of_nat (length bl))
          then Some (<[b := take (Z.to_nat off) bl ++ cs
                            ++ drop (Z.to_nat off + length cs) bl]> m)
          else None
      end
  end.

(** Whether the [n]-byte regions at [p] and [q] share a byte. *)
Definition overlap (p q : pointer) (n : Z) : bool :=
  match p, q with
  | Ptr b1 o1, Ptr b2 o2 =>
      bool_decide (b1 = b2) && (o1 <? o2 + n) && (o2 <? o1 + n)
  | _, _ => false
  end.

(** [memcpy(dst, src, n)]: both regions must be accessible and disjoint. *)
Definition memcpy (dst src : pointer) (n : Z) (m : memory) : outcome memory :=
  match load m src n with
  | None => Undefined
  | Some cs =>
      if overlap dst src n then Undefined
      else match store m dst cs with
           | None => Undefined
           | Some m' => Returned m'
           end
  end.

(** [PTRDIFF_MAX] on LP64: no object is larger. *)
Definition PTRDIFF_MAX : Z := 2 ^ 63 - 1.

(** [malloc(size)]: [NULL] for a request no object can satisfy, otherwise the
    base of a fresh block of [size] indeterminate cells (a unique pointer also
    for [size = 0], as glibc gives). *)
Definition malloc (size : Z) (m : memory) : pointer * memory :=
  if PTRDIFF_MAX <? size then (NULL, m)
  else
    let b := fresh (dom m) in
    (Ptr b 0, <[b := replicate (Z.to_nat size) None]> m).

(** The block that [p] is the base address of. *)
Definition block_at (m : memory) (p : pointer) : option (list cell) :=
  match p with
  | NULL => None
  | Ptr b off => if off =? 0 then m !! b else None
  end.

(** Conversion of an integer to [size_t]: reduction modulo [2^64]. *)
Definition to_size_t (z : Z) : Z := z mod 2 ^ 64.

(** ** The node *)

(** [struct MerkleNode { byte Header; byte Keccak[32]; byte Length;
    byte *Data; }] *)
Record MerkleNode : Type := mkMerkleNode {
  Header : byte;
  Keccak : list byte;
  Length : byte;
  Data : pointer;
}.

(** [sizeof(node.Keccak)] *)
Definition sizeof_Keccak : Z := 32.

(** [MerkleNode node = {};] : every member zero, the pointer null. *)
Definition MerkleNode_zero : MerkleNode :=
  {| Header := 0;
     Keccak := replicate (Z.to_nat sizeof_Keccak) 0;
     Length := 0;
     Data := NULL |}.

(** Assignments to one member. *)
Definition set_Header (h : byte) (node : MerkleNode) : MerkleNode :=
  {| Header := h; Keccak := Keccak node; Length := Length node; Data := Data node |}.

Definition set_Keccak (k : list byte) (node : MerkleNode) : MerkleNode :=
  {| Header := Header node; Keccak := k; Length := Length node; Data := Data node |}.

Definition set_Length (l : byte) (node : MerkleNode) : MerkleNode :=
  {| Header := Header node; Keccak := Keccak node; Length := l; Data := Data node |}.

Definition set_Data (p : pointer) (node : MerkleNode) : MerkleNode :=
  {| Header := Header node; Keccak := Keccak node; Length := Length node; Data := p |}.

(** [return (node.Header & IsDirtyFlag) != 0;] *)
Definition MerkleNode_IsDirty (node : MerkleNode) : bool :=
  negb (Z.land (Header node) IsDirtyFlag =? 0).

(** [return (NodeType)((node.Header & NodeTypeFlag) >> 1);]  The cast keeps
    the integer, so the result is the integer value of the enum object, which
    need not be the value of an enumerator. *)
Definition MerkleNode_NodeType (node : MerkleNode) : Z :=
  Z.shiftr (Z.land (Header node) NodeTypeFlag) 1.

(** ** Constructors *)

Section Target.

(** Whether plain [char] is a signed type on the target. *)
Variable char_signed : bool.

(** Conversion of an integer to [byte]: modulo [2^8], into [-128, 127] when
    [char] is signed (the out-of-range case is implementation-defined; GCC
    and Clang reduce modulo [2^8]) and into [0, 255] when it is not. *)
Definition to_byte (z : Z) : byte :=
  if char_signed then (z + 128) mod 256 - 128 else z mod 256.

(** [memset(a, c, n)] on an array member [a] of at least [n] bytes. *)
Definition memset (a : list byte) (c : Z) (n : Z) : list byte :=
  replicate (Z.to_nat n) (to_byte c) ++ drop (Z.to_nat n) a.

(** The header expression of the constructors, [(byte)type << 1 | IsDirtyFlag],
    and the same without the flag, [(byte)type << 1], converted to [byte]. *)
Definition header_of (type : NodeType) (dirty : bool) : byte :=
  if dirty
  then to_byte (Z.lor (Z.shiftl (to_byte (NodeType_val type)) 1) IsDirtyFlag)
  else to_byte (Z.shiftl (to_byte (NodeType_val type)) 1).

(** [MerkleNode MerkleNode_newBranch(byte *nibbles)] *)
Definition MerkleNode_newBranch (nibbles : pointer) (m : memory)
  : outcome (MerkleNode * memory) :=
  let branch := MerkleNode_zero in
  let branch :=
    set_Header (to_byte (Z.lor (Z.shiftl (to_byte (NodeType_val Branch)) 1) IsDirtyFlag))
               branch in
  let branch := set_Keccak (memset (Keccak branch) 0 sizeof_Keccak) branch in
  let branch := set_Length (to_byte 2) branch in
  let '(p, m) := malloc (to_size_t (Length branch)) m in
  let branch := set_Data p branch in
  m ← memcpy (Data branch) nibbles (to_size_t (Length branch)) m;
  mret (branch, m).

(** [MerkleNode MerkleNode_newExtension(byte *nibblePath, int pathLength)] *)
Definition MerkleNode_newExtension (nibblePath : pointer) (pathLength : Z)
  (m : memory) : outcome (MerkleNode * memory) :=
  let extension := MerkleNode_zero in
  let extension :=
    set_Header (to_byte (Z.lor (Z.shiftl (to_byte (NodeType_val Extension)) 1) IsDirtyFlag))
               extension in
  let extension := set_Keccak (memset (Keccak extension) 0 sizeof_Keccak) extension in
  let extension := set_Length (to_byte pathLength) extension in
  let '(p, m) := malloc (to_size_t (Length extension)) m in
  let extension := set_Data p extension in
  m ← memcpy (Data extension) nibblePath (to_size_t (Length extension)) m;
  mret (extension, m).

(** [MerkleNode MerkleNode_newLeaf(byte *nibblePath, int pathLength)] *)
Definition MerkleNode_newLeaf (nibblePath : pointer) (pathLength : Z)
  (m : memory) : outcome (MerkleNode * memory) :=
  let leaf := MerkleNode_zero in
  let leaf :=
    set_Header (to_byte (Z.lor (Z.shiftl (to_byte (NodeType_val Leaf)) 1) IsDirtyFlag))
               leaf in
  let leaf := set_Keccak (memset (Keccak leaf) 0 sizeof_Keccak) leaf in
  let leaf := set_Length (to_byte pathLength) leaf in
  let '(p, m) := malloc (to_size_t (Length leaf)) m in
  let leaf := set_Data p leaf in
  m ← memcpy (Data leaf) nibblePath (to_size_t (Length leaf)) m;
  mret (leaf, m).

(** *** The layer's operations, as one type *)

(** A call of one of the three constructors with its arguments. *)
Inductive ctor_call : Type :=
  | NewBranch (nibbles : pointer)
  | NewExtension (nibblePath : pointer) (pathLength : Z)
  | NewLeaf (nibblePath : pointer) (pathLength : Z).

Definition construct (c : ctor_call) (m : memory) : outcome (MerkleNode * memory) :=
  match c with
  | NewBranch nibbles => MerkleNode_newBranch nibbles m
  | NewExtension nibblePath pathLength => MerkleNode_newExtension nibblePath pathLength m
  | NewLeaf nibblePath pathLength => MerkleNode_newLeaf nibblePath pathLength m
  end.

(** The node type a constructor is for. *)
Definition ctor_type (c : ctor_call) : NodeType :=
  match c with
  | NewBranch _ => Branch
  | NewExtension _ _ => Extension
  | NewLeaf _ _ => Leaf
  end.

(** The buffer a constructor is handed. *)
Definition ctor_input (c : ctor_call) : pointer :=
  match c with
  | NewBranch nibbles => nibbles
  | NewExtension nibblePath _ => nibblePath
  | NewLeaf nibblePath _ => nibblePath
  end.

(** The value a constructor assigns to the [Length] member. *)
Definition ctor_length (c : ctor_call) : byte :=
  match c with
  | NewBranch _ => to_byte 2
  | NewExtension _ pathLength => to_byte pathLength
  | NewLeaf _ pathLength => to_byte pathLength
  end.

(** Any call into the layer made by a caller that holds a node: the two
    accessors, applied to that node, or a constructor. *)
Inductive layer_op : Type :=
  | CallIsDirty
  | CallNodeType
  | CallConstructor (c : ctor_call).

(** One call, on the caller's node and the memory.  The accessors take the
    struct by value and only compute a result; the constructors return a new
    struct and extend the memory. *)
Definition exec (op : layer_op) (st : MerkleNode * memory)
  : outcome (MerkleNode * memory) :=
  let '(node, m) := st in
  match op with
  | CallIsDirty => let _ := MerkleNode_IsDirty node in mret (node, m)
  | CallNodeType => let _ := MerkleNode_NodeType node in mret (node, m)
  | CallConstructor c => '(_, m') ← construct c m; mret (node, m')
  end.

(** A sequence of calls. *)
Fixpoint run (ops : list layer_op) (st : MerkleNode * memory)
  : outcome (MerkleNode * memory) :=
  match ops with
  | [] => mret st
  | op :: ops' => st' ← exec op st; run ops' st'
  end.

End Target.

(** The payload of a node: the block its [Data] member is the base of. *)
Definition payload (m : memory) (node : MerkleNode) : option (list cell) :=
  block_at m (Data node).

(** The node every constructor builds, up to the address of its payload. *)
Definition built (sg : bool) (c : ctor_call) (p : pointer) : MerkleNode :=
  {| Header := header_of sg (ctor_type c) true;
     Keccak := replicate 32 0;
     Length := ctor_length sg c;
     Data := p |}.

(** The buffers of the demonstration harness, each in a block of its own:
    [path] of [test_leaf] in block 0, [path] of [test_extension] in block 1,
    [nibbles] of [test_branch] in block 2. *)
Definition test_memory : memory :=
  {[ 0%nat := Some <$> [2; 4; 6];
     1%nat := Some <$> [1; 3; 5; 7];
     2%nat := Some <$> [105; 105] ]}.

(** A memory whose block 0 holds a path of [n] bytes. *)
Definition path_memory (n : nat) : memory :=
  {[ 0%nat := replicate n (Some 1) ]}.

(** Whether [p] is null or points into a live block of [m]. *)
Definition null_or_live (m : memory) (p : pointer) : bool :=
  match p with
  | NULL => true
  | Ptr b _ => bool_decide (b ∈ dom m)
  end.

(** ** Standard output *)

(** The line feed written by ["\n"]. *)
Definition nl : string := String (Ascii.ascii_of_nat 10) EmptyString.

(** [printf("%x", v)] for an [int] argument [v]: the argument read as an
    [unsigned int] (32 bits), in lower-case hexadecimal without leading
    zeros. *)
Definition printf_x (v : Z) : string :=
  HexadecimalString.NilZero.string_of_uint (N.to_hex_uint (Z.to_N (v mod 2 ^ 32))).

(** [printf("%d", v)] for an [int] argument [v]: signed decimal. *)
Definition printf_d (v : Z) : string :=
  DecimalString.NilZero.string_of_int (Z.to_int v).

(** [INT_MIN] for a 32-bit [int]. *)
Definition INT_MIN : Z := - 2 ^ 31.

(** ** Printing an array *)

(** [p + i] *)
Definition ptr_add (p : pointer) (i : Z) : pointer :=
  match p with
  | NULL => NULL
  | Ptr b off => Ptr b (off + i)
  end.

Section Printing.

(** The value found in a byte that was allocated and never written: it is
    unspecified, so it is a parameter, one value per address. *)
Variable unspecified : pointer -> byte.

(** [array[i]], promoted to [int]: the cell must lie in a live block.  A
    cell that holds a value gives that value; a cell that was never written
    is read through a [char] lvalue all the same and gives the unspecified
    value at its address. *)
Definition read_byte (m : memory) (array : pointer) (i : Z) : outcome Z :=
  match load m (ptr_add array i) 1 with
  | Some [Some v] => Returned v
  | Some [None] => Returned (unspecified (ptr_add array i))
  | _ => Undefined
  end.

(** [for (int i = 0; i < length - 1; i++) printf("%x, ", array[i]);] entered
    with the counter at [i] and [n] iterations to go; [out] is what has been
    written so far. *)
Fixpoint print_array_loop (n : nat) (array : pointer) (i : Z) (m : memory)
  (out : string) : outcome string :=
  match n with
  | O => mret out
  | S n' =>
      v ← read_byte m array i;
      print_array_loop n' array (i + 1) m (out +:+ printf_x v +:+ ", ")
  end.

(** [void print_array(byte *array, int length)]: the loop runs
    [length - 1] times when that is positive and not at all otherwise;
    [length - 1] overflows for [INT_MIN]. *)
Definition print_array (array : pointer) (length : Z) (m : memory) (out : string)
  : outcome string :=
  if length =? 0 then mret (out +:+ "[]" +:+ nl)
  else if length - 1 <? INT_MIN then Undefined
  else
    out ← print_array_loop (Z.to_nat (length - 1)) array 0 m (out +:+ "[");
    v ← read_byte m array (length - 1);
    mret (out +:+ printf_x v +:+ "]" +:+ nl).

End Printing.

(** ** The demonstration harness *)

(** A local array with an initialiser: a fresh block for the time of the
    call. *)
Definition local_array (cs : list cell) (m : memory) : pointer * memory :=
  let b := fresh (dom m) in (Ptr b 0, <[b := cs]> m).

(** The end of the lifetime of a local array. *)
Definition end_of_scope (p : pointer) (m : memory) : memory :=
  match p with
  | NULL => m
  | Ptr b _ => delete b m
  end.

Section Harness.

Variable char_signed : bool.

(** The values of never-written bytes, as in [read_byte]. *)
Variable unspecified : pointer -> byte.

(** [void test_branch()] *)
Definition test_branch (m : memory) (out : string) : outcome (memory * string) :=
  let '(nibbles, m) :=
    local_array (Some <$> [to_byte char_signed 105; to_byte char_signed 105]) m in
  '(branch, m) ← MerkleNode_newBranch char_signed nibbles m;
  let out := out +:+ "branch.IsDirty: " +:+ printf_d (Z.b2z (MerkleNode_IsDirty branch)) +:+ nl in
  let out := out +:+ "branch.NodeType: " +:+ printf_d (MerkleNode_NodeType branch) +:+ nl in
  let out := out +:+ "branch.Length: " +:+ printf_d (Length branch) +:+ nl in
  out ← print_array unspecified (Data branch) (Length branch) m out;
  mret (end_of_scope nibbles m, out).

(** [void test_extension()]; [sizeof(path)] is 4. *)
Definition test_extension (m : memory) (out : string) : outcome (memory * string) :=
  let '(path, m) :=
    local_array (Some <$> [to_byte char_signed 1; to_byte char_signed 3;
                           to_byte char_signed 5; to_byte char_signed 7]) m in
  '(extension, m) ← MerkleNode_newExtension char_signed path 4 m;
  let out := out +:+ "extension.IsDirty: " +:+ printf_d (Z.b2z (MerkleNode_IsDirty extension)) +:+ nl in
  let out := out +:+ "extension.NodeType: " +:+ printf_d (MerkleNode_NodeType extension) +:+ nl in
  let out := out +:+ "extension.Length: " +:+ printf_d (Length extension) +:+ nl in
  out ← print_array unspecified (Data extension) (Length extension) m out;
  mret (end_of_scope path m, out).

(** [void test_leaf()]; [sizeof(path)] is 3. *)
Definition test_leaf (m : memory) (out : string) : outcome (memory * string) :=
  let '(path, m) :=
    local_array (Some <$> [to_byte char_signed 2; to_byte char_signed 4;
                           to_byte char_signed 6]) m in
  '(leaf, m) ← MerkleNode_newLeaf char_signed path 3 m;
  let out := out +:+ "leaf.IsDirty: " +:+ printf_d (Z.b2z (MerkleNode_IsDirty leaf)) +:+ nl in
  let out := out +:+ "leaf.NodeType: " +:+ printf_d (MerkleNode_NodeType leaf) +:+ nl in
  let out := out +:+ "leaf.Length: " +:+ printf_d (Length leaf) +:+ nl in
  out ← print_array unspecified (Data leaf) (Length leaf) m out;
  mret (end_of_scope path m, out).

(** [int main(void)]: the exit status, the memory and the output. *)
Definition main (m : memory) (out : string) : outcome (Z * memory * string) :=
  '(m, out) ← test_leaf m out;
  '(m, out) ← test_extension m out;
  '(m, out) ← test_branch m out;
  mret (0, m, out).

End Harness.

(** * Properties *)

(** ** Bytes and bits *)

Lemma to_byte_small (sg : bool) (z : Z) : 0 <= z < 128 -> to_byte sg z = z.
Proof.
  intros Hz. unfold to_byte. destruct sg.
  - rewrite Z.mod_small by lia. lia.
  - apply Z.mod_small. lia.
Qed.

Lemma to_byte_range (sg : bool) (z : Z) :
  if sg then -128 <= to_byte sg z < 128 else 0 <= to_byte sg z < 256.
Proof.
  unfold to_byte. destruct sg.
  - pose proof (Z.mod_pos_bound (z + 128) 256). lia.
  - apply Z.mod_pos_bound. lia.
Qed.

(** Masking with a single bit keeps that bit and nothing else. *)
Lemma land_pow2 (h n : Z) :
  0 <= n -> Z.land h (2 ^ n) = if Z.testbit h n then 2 ^ n else 0.
Proof.
  intros Hn. apply Z.bits_inj'. intros i Hi.
  rewrite Z.land_spec, Z.pow2_bits_eqb by assumption.
  destruct (Z.eqb_spec n i) as [->|Hne].
  - destruct (Z.testbit h i); simpl.
    + rewrite Z.pow2_bits_eqb, Z.eqb_refl by assumption. reflexivity.
    + rewrite Z.bits_0. reflexivity.
  - rewrite andb_false_r. destruct (Z.testbit h n).
    + rewrite Z.pow2_bits_eqb by assumption.
      symmetry. apply Z.eqb_neq. assumption.
    + rewrite Z.bits_0. reflexivity.
Qed.

Lemma IsDirty_testbit (node : MerkleNode) :
  MerkleNode_IsDirty node = Z.testbit (Header node) 3.
Proof.
  unfold MerkleNode_IsDirty, IsDirtyFlag.
  change 8 with (2 ^ 3). rewrite land_pow2 by lia.
  destruct (Z.testbit (Header node) 3); reflexivity.
Qed.

Lemma NodeType_shift_mask (node : MerkleNode) :
  MerkleNode_NodeType node = Z.land (Z.shiftr (Header node) 1) 3.
Proof.
  unfold MerkleNode_NodeType, NodeTypeFlag.
  rewrite Z.shiftr_land. reflexivity.
Qed.

Lemma NodeType_testbit (node : MerkleNode) (i : Z) :
  0 <= i ->
  Z.testbit (MerkleNode_NodeType node) i
  = (i <? 2) && Z.testbit (Header node) (i + 1).
Proof.
  intros Hi. rewrite NodeType_shift_mask.
  rewrite Z.land_spec, Z.shiftr_spec by assumption.
  change 3 with (Z.ones 2).
  destruct (Z.ltb_spec i 2).
  - rewrite Z.ones_spec_low by lia. rewrite andb_true_r. reflexivity.
  - rewrite Z.ones_spec_high by lia. rewrite andb_false_r. reflexivity.
Qed.

Lemma NodeType_bits_value (node : MerkleNode) :
  MerkleNode_NodeType node
  = Z.b2z (Z.testbit (Header node) 1) + 2 * Z.b2z (Z.testbit (Header node) 2).
Proof.
  rewrite NodeType_shift_mask.
  change 3 with (Z.ones 2). rewrite Z.land_ones by lia.
  rewrite Z.shiftr_div_pow2 by lia.
  rewrite !Z.testbit_spec' by lia.
  change (2 ^ 1) with 2. change (2 ^ 2) with 4.
  Z.div_mod_to_equations. lia.
Qed.

Lemma NodeType_range (node : MerkleNode) : 0 <= MerkleNode_NodeType node <= 3.
Proof.
  rewrite NodeType_bits_value.
  destruct (Z.testbit (Header node) 1), (Z.testbit (Header node) 2); simpl; lia.
Qed.

(** ** Header codec *)

(** C1. Packing a type and a dirty flag into a header byte the way the
    constructors do, then reading the byte back with [MerkleNode_NodeType]
    and [MerkleNode_IsDirty], gives back the type and the flag; this holds
    for each of the three types, both flag values and both kinds of [char]. *)
Theorem header_round_trip (sg : bool) (t : NodeType) (d : bool) (node : MerkleNode) :
  MerkleNode_NodeType (set_Header (header_of sg t d) node) = NodeType_val t
  /\ NodeType_of_val (MerkleNode_NodeType (set_Header (header_of sg t d) node)) = Some t
  /\ MerkleNode_IsDirty (set_Header (header_of sg t d) node) = d.
Proof. destruct sg, t, d; repeat split. Qed.

(** C2. For every header byte the dirty flag read by [MerkleNode_IsDirty] is
    bit 3 of the byte, the tag read by [MerkleNode_NodeType] is bits 1 and 2
    (the byte shifted right by one and masked with [0b11]), and bit 0 plays no
    part: setting or clearing it changes neither reading, and packing never
    sets it. *)
Theorem header_bit_layout (h : byte) (node : MerkleNode) :
  let n := set_Header h node in
  MerkleNode_IsDirty n = Z.testbit h 3
  /\ MerkleNode_NodeType n = Z.land (Z.shiftr h 1) 3
  /\ MerkleNode_NodeType n = Z.b2z (Z.testbit h 1) + 2 * Z.b2z (Z.testbit h 2)
  /\ MerkleNode_IsDirty (set_Header (Z.setbit h 0) node) = MerkleNode_IsDirty n
  /\ MerkleNode_IsDirty (set_Header (Z.clearbit h 0) node) = MerkleNode_IsDirty n
  /\ MerkleNode_NodeType (set_Header (Z.setbit h 0) node) = MerkleNode_NodeType n
  /\ MerkleNode_NodeType (set_Header (Z.clearbit h 0) node) = MerkleNode_NodeType n
  /\ (forall sg t d, Z.testbit (header_of sg t d) 0 = false).
Proof.
  intros n. subst n.
  split; [apply IsDirty_testbit|].
  split; [apply NodeType_shift_mask|].
  split; [apply NodeType_bits_value|].
  rewrite !IsDirty_testbit, !NodeType_bits_value. cbn [Header set_Header].
  rewrite !Z.setbit_neq, !Z.clearbit_neq by lia.
  repeat split. intros sg t d. destruct sg, t, d; reflexivity.
Qed.

(** ** Memory operations *)

Lemma load_length (m : memory) (p : pointer) (n : Z) (cs : list cell) :
  load m p n = Some cs -> Z.of_nat (length cs) = n.
Proof.
  unfold load. destruct p as [|b off]; [discriminate|].
  destruct (m !! b) as [bl|]; [|discriminate].
  destruct (_ && _) eqn:Hc; [|discriminate].
  intros [= <-]. rewrite length_take, length_drop. lia.
Qed.

Lemma load_live (m : memory) (b : nat) (off n : Z) (cs : list cell) :
  load m (Ptr b off) n = Some cs -> b ∈ dom m.
Proof.
  unfold load. destruct (m !! b) as [bl|] eqn:Hb; [|discriminate].
  intros _. apply elem_of_dom. eauto.
Qed.

(** A load does not see a block inserted elsewhere. *)
Lemma load_insert_ne (m : memory) (b b' : nat) (bl : list cell) (off n : Z) :
  b <> b' -> load (<[b := bl]> m) (Ptr b' off) n = load m (Ptr b' off) n.
Proof. intros Hne. unfold load. rewrite lookup_insert_ne by assumption. reflexivity. Qed.

Lemma fresh_not_live (m : memory) : fresh (dom m) ∉ dom m.
Proof. apply is_fresh. Qed.

(** [malloc] followed by [memcpy] into the new block, as every constructor
    does: with [n] readable bytes at [src] the pair returns, and the new block
    holds exactly those bytes. *)
Lemma alloc_copy_returns (m : memory) (src : pointer) (n : Z) (cs : list cell) :
  n <= PTRDIFF_MAX ->
  load m src n = Some cs ->
  malloc n m = (Ptr (fresh (dom m)) 0, <[fresh (dom m) := replicate (Z.to_nat n) None]> m)
  /\ memcpy (Ptr (fresh (dom m)) 0) src n (<[fresh (dom m) := replicate (Z.to_nat n) None]> m)
     = Returned (<[fresh (dom m) := cs]> m).
Proof.
  intros Hn Hload. pose proof (load_length _ _ _ _ Hload) as Hlen.
  split.
  - unfold malloc. destruct (Z.ltb_spec PTRDIFF_MAX n); [lia|reflexivity].
  - destruct src as [|b' off]; [discriminate|].
    assert (fresh (dom m) <> b') as Hne.
    { intros <-. eapply fresh_not_live, load_live, Hload. }
    unfold memcpy. rewrite load_insert_ne, Hload by assumption.
    unfold overlap. rewrite bool_decide_eq_false_2 by assumption. simpl.
    unfold store. rewrite lookup_insert_eq, length_replicate.
    destruct (Z.leb_spec (0 + Z.of_nat (length cs)) (Z.of_nat (Z.to_nat n))); [|lia].
    cbn [andb Z.leb Z.compare].
    rewrite insert_insert_eq. do 2 f_equal.
    rewrite drop_ge by (rewrite length_replicate; lia).
    rewrite app_nil_r. reflexivity.
Qed.

(** Conversely, when the pair returns, the request was satisfiable, [n] bytes
    were readable at [src] once the block existed, and the new block holds
    them. *)
Lemma alloc_copy_inv (m m1 m' : memory) (p src : pointer) (n : Z) :
  0 <= n ->
  malloc n m = (p, m1) ->
  memcpy p src n m1 = Returned m' ->
  n <= PTRDIFF_MAX
  /\ p = Ptr (fresh (dom m)) 0
  /\ exists cs, load m1 src n = Some cs
       /\ Z.of_nat (length cs) = n
       /\ m' = <[fresh (dom m) := cs]> m.
Proof.
  intros Hn0 Hmalloc Hcpy. unfold malloc in Hmalloc.
  destruct (Z.ltb_spec PTRDIFF_MAX n) as [Hbig|Hok].
  - injection Hmalloc as <- <-. unfold memcpy in Hcpy.
    destruct (load m src n); [|discriminate].
    destruct (overlap NULL src n); discriminate.
  - injection Hmalloc as <- <-. split; [assumption|]. split; [reflexivity|].
    unfold memcpy in Hcpy.
    destruct (load _ src n) as [cs|] eqn:Hload; [|discriminate].
    pose proof (load_length _ _ _ _ Hload) as Hlen.
    destruct (overlap _ src n); [discriminate|].
    unfold store in Hcpy. rewrite lookup_insert_eq, length_replicate in Hcpy.
    destruct (_ && _) in Hcpy; [|discriminate].
    injection Hcpy as <-.
    exists cs. split; [reflexivity|]. split; [assumption|].
    rewrite insert_insert_eq. f_equal.
    rewrite drop_ge by (rewrite length_replicate; lia).
    rewrite app_nil_r. reflexivity.
Qed.

(** ** Constructors *)

(** A [byte] that is negative becomes a [size_t] above [PTRDIFF_MAX]. *)
Lemma to_size_t_byte (sg : bool) (z : Z) :
  (0 <= to_byte sg z -> to_size_t (to_byte sg z) = to_byte sg z)
  /\ (to_byte sg z < 0 -> PTRDIFF_MAX < to_size_t (to_byte sg z)).
Proof.
  pose proof (to_byte_range sg z) as Hr. unfold to_size_t, PTRDIFF_MAX.
  split; intros H.
  - apply Z.mod_small. destruct sg; lia.
  - replace (to_byte sg z) with (to_byte sg z + 2 ^ 64 - 1 * 2 ^ 64) by lia.
    rewrite Zminus_mod, Z_mod_mult, Z.sub_0_r, Z.mod_mod by lia.
    rewrite Z.mod_small; destruct sg; lia.
Qed.

(** Every constructor is the same allocation and copy, on the value it
    stored in [Length]. *)
Lemma construct_unfold (sg : bool) (c : ctor_call) (m : memory) :
  construct sg c m
  = let '(p, m1) := malloc (to_size_t (ctor_length sg c)) m in
    m' ← memcpy p (ctor_input c) (to_size_t (ctor_length sg c)) m1;
    mret (built sg c p, m').
Proof.
  destruct c; unfold construct, MerkleNode_newBranch, MerkleNode_newExtension,
    MerkleNode_newLeaf; cbn [Length Data set_Length set_Data ctor_length ctor_input];
    destruct (malloc _ m) as [p m1]; destruct (memcpy _ _ _ m1); try reflexivity;
    destruct sg; reflexivity.
Qed.

(** With a non-negative [Length] and that many readable bytes at the input
    pointer, a constructor returns; the payload is a fresh block holding those
    bytes. *)
Lemma construct_returns (sg : bool) (c : ctor_call) (m : memory) (cs : list cell) :
  0 <= ctor_length sg c ->
  load m (ctor_input c) (ctor_length sg c) = Some cs ->
  construct sg c m
  = Returned (built sg c (Ptr (fresh (dom m)) 0), <[fresh (dom m) := cs]> m).
Proof.
  intros Hlen Hload. rewrite construct_unfold.
  assert (to_size_t (ctor_length sg c) = ctor_length sg c) as ->.
  { destruct c; apply to_size_t_byte; assumption. }
  assert (ctor_length sg c <= PTRDIFF_MAX) as Hmax.
  { unfold PTRDIFF_MAX.
    destruct c; cbn [ctor_length];
      match goal with |- to_byte _ ?z <= _ => pose proof (to_byte_range sg z) end;
      destruct sg; lia. }
  destruct (alloc_copy_returns m _ _ cs Hmax Hload) as [-> ->]. reflexivity.
Qed.

(** When a constructor returns, [Length] was non-negative, the node is the
    one described by [built] and the payload block holds [Length] bytes read
    at the input pointer. *)
Lemma construct_inv (sg : bool) (c : ctor_call) (m m' : memory) (node : MerkleNode) :
  construct sg c m = Returned (node, m') ->
  0 <= ctor_length sg c
  /\ node = built sg c (Ptr (fresh (dom m)) 0)
  /\ exists cs,
       load (<[fresh (dom m) := replicate (Z.to_nat (ctor_length sg c)) None]> m)
            (ctor_input c) (ctor_length sg c) = Some cs
       /\ Z.of_nat (length cs) = ctor_length sg c
       /\ m' = <[fresh (dom m) := cs]> m.
Proof.
  rewrite construct_unfold. intros H.
  destruct (Z.lt_ge_cases (ctor_length sg c) 0) as [Hneg|Hpos].
  - exfalso.
    assert (PTRDIFF_MAX < to_size_t (ctor_length sg c)) as Hbig.
    { destruct c; apply to_size_t_byte; assumption. }
    unfold malloc in H. destruct (Z.ltb_spec PTRDIFF_MAX (to_size_t (ctor_length sg c))); [|lia].
    unfold memcpy in H. destruct (load m _ _); [|discriminate].
    destruct (overlap _ _ _); discriminate.
  - assert (to_size_t (ctor_length sg c) = ctor_length sg c) as Hsz.
    { destruct c; apply to_size_t_byte; assumption. }
    rewrite Hsz in H.
    destruct (malloc _ m) as [p m1] eqn:Hmalloc.
    destruct (memcpy p _ _ m1) as [m2|] eqn:Hcpy; [|discriminate].
    injection H as <- <-.
    destruct (alloc_copy_inv _ _ _ _ _ _ Hpos Hmalloc Hcpy) as (_ & -> & cs & Hload & Hlen & ->).
    split; [assumption|]. split; [reflexivity|].
    exists cs. unfold malloc in Hmalloc.
    destruct (PTRDIFF_MAX <? _); [discriminate|]. injection Hmalloc as <-.
    auto.
Qed.

(** ** Claims on the header of a node *)

(** C3, as the code has it. [MerkleNode_NodeType] has no error result: on a
    header whose tag field (bits 1 and 2) is 3 it returns the integer 3, which
    is the value of none of the three enumerators. *)
Theorem NodeType_reserved_tag (node : MerkleNode) :
  Z.land (Z.shiftr (Header node) 1) 3 = 3 ->
  MerkleNode_NodeType node = 3
  /\ NodeType_of_val (MerkleNode_NodeType node) = None
  /\ forall t, MerkleNode_NodeType node <> NodeType_val t.
Proof.
  intros Htag. rewrite NodeType_shift_mask, Htag.
  split; [reflexivity|]. split; [reflexivity|].
  intros t. destruct t; discriminate.
Qed.

Lemma NodeType_reserved_tag_witness :
  Z.land (Z.shiftr (Header (set_Header 6 MerkleNode_zero)) 1) 3 = 3
  /\ MerkleNode_NodeType (set_Header 6 MerkleNode_zero) = 3
  /\ NodeType_of_val (MerkleNode_NodeType (set_Header 6 MerkleNode_zero)) = None
  /\ forall t, MerkleNode_NodeType (set_Header 6 MerkleNode_zero) <> NodeType_val t.
Proof.
  split; [reflexivity|].
  apply (NodeType_reserved_tag (set_Header 6 MerkleNode_zero)). reflexivity.
Defined.

(** C3 as stated fails: on the header [0b0110], whose tag field is 3, the
    accessor returns a value, the out-of-range integer 3, and reports no
    error. *)
Lemma NodeType_reserved_tag_is_returned :
  Z.land (Z.shiftr (Header (set_Header 6 MerkleNode_zero)) 1) 3 = 3
  /\ exists v : Z,
       MerkleNode_NodeType (set_Header 6 MerkleNode_zero) = v
       /\ v = 3
       /\ NodeType_of_val v = None.
Proof. split; [reflexivity|]. exists 3. repeat split. Qed.

(** ** Claims on constructed nodes *)

(** C4. For every valid input, that is whenever the [Length] a constructor
    stores is not negative and that many bytes are readable at the input
    pointer, each of the three constructors returns a node, and
    [MerkleNode_IsDirty] of that node is true. *)
Theorem new_nodes_are_dirty (sg : bool) (c : ctor_call) (m : memory) (cs : list cell) :
  0 <= ctor_length sg c ->
  load m (ctor_input c) (ctor_length sg c) = Some cs ->
  exists node m',
    construct sg c m = Returned (node, m')
    /\ MerkleNode_IsDirty node = true.
Proof.
  intros Hpos Hload.
  exists (built sg c (Ptr (fresh (dom m)) 0)), (<[fresh (dom m) := cs]> m).
  split; [exact (construct_returns sg c m cs Hpos Hload)|].
  destruct sg, c; reflexivity.
Qed.

Lemma new_nodes_are_dirty_witness :
  (0 <= ctor_length true (NewLeaf (Ptr 0 0) 3)
   /\ load test_memory (ctor_input (NewLeaf (Ptr 0 0) 3))
           (ctor_length true (NewLeaf (Ptr 0 0) 3)) = Some (Some <$> [2; 4; 6])
   /\ exists node m',
        construct true (NewLeaf (Ptr 0 0) 3) test_memory = Returned (node, m')
        /\ MerkleNode_IsDirty node = true)
  /\ (0 <= ctor_length true (NewExtension (Ptr 1 0) 4)
      /\ load test_memory (ctor_input (NewExtension (Ptr 1 0) 4))
              (ctor_length true (NewExtension (Ptr 1 0) 4)) = Some (Some <$> [1; 3; 5; 7])
      /\ exists node m',
           construct true (NewExtension (Ptr 1 0) 4) test_memory = Returned (node, m')
           /\ MerkleNode_IsDirty node = true)
  /\ (0 <= ctor_length false (NewBranch (Ptr 2 0))
      /\ load test_memory (ctor_input (NewBranch (Ptr 2 0)))
              (ctor_length false (NewBranch (Ptr 2 0))) = Some (Some <$> [105; 105])
      /\ exists node m',
           construct false (NewBranch (Ptr 2 0)) test_memory = Returned (node, m')
           /\ MerkleNode_IsDirty node = true).
Proof.
  assert (0 <= ctor_length true (NewLeaf (Ptr 0 0) 3)) as L1 by (vm_compute; discriminate).
  assert (load test_memory (ctor_input (NewLeaf (Ptr 0 0) 3))
               (ctor_length true (NewLeaf (Ptr 0 0) 3)) = Some (Some <$> [2; 4; 6])) as L2
    by (vm_compute; reflexivity).
  assert (0 <= ctor_length true (NewExtension (Ptr 1 0) 4)) as E1
    by (vm_compute; discriminate).
  assert (load test_memory (ctor_input (NewExtension (Ptr 1 0) 4))
               (ctor_length true (NewExtension (Ptr 1 0) 4)) = Some (Some <$> [1; 3; 5; 7]))
    as E2 by (vm_compute; reflexivity).
  assert (0 <= ctor_length false (NewBranch (Ptr 2 0))) as B1 by (vm_compute; discriminate).
  assert (load test_memory (ctor_input (NewBranch (Ptr 2 0)))
               (ctor_length false (NewBranch (Ptr 2 0))) = Some (Some <$> [105; 105])) as B2
    by (vm_compute; reflexivity).
  split; [split; [exact L1|split; [exact L2|exact (new_nodes_are_dirty _ _ _ _ L1 L2)]]|].
  split; [split; [exact E1|split; [exact E2|exact (new_nodes_are_dirty _ _ _ _ E1 E2)]]|].
  split; [exact B1|split; [exact B2|exact (new_nodes_are_dirty _ _ _ _ B1 B2)]].
Defined.

(** C5. In a node returned by a constructor, [Length] is the size of the
    payload block: the block at [Data] has exactly [Length] bytes, all of
    which a read of [Length] bytes at [Data] gives back. *)
Theorem length_is_payload_size (sg : bool) (c : ctor_call) (m m' : memory) (node : MerkleNode) :
  construct sg c m = Returned (node, m') ->
  exists buf,
    payload m' node = Some buf
    /\ Z.of_nat (length buf) = Length node
    /\ load m' (Data node) (Length node) = Some buf.
Proof.
  intros H. apply construct_inv in H as (Hpos & -> & cs & _ & Hlen & ->).
  exists cs. unfold payload, block_at, load. cbn [Data Length built].
  rewrite lookup_insert_eq, <- Hlen. split; [reflexivity|]. split; [reflexivity|].
  destruct (Z.leb_spec 0 (Z.of_nat (length cs))); [|lia].
  change (0 + ?x) with x. rewrite !Z.leb_refl.
  cbn [andb Z.leb Z.compare Z.to_nat drop].
  rewrite Nat2Z.id, firstn_all. reflexivity.
Qed.

Lemma length_is_payload_size_witness :
  construct false (NewExtension (Ptr 1 0) 4) test_memory
  = Returned (mkMerkleNode 10 (replicate 32 0) 4 (Ptr 3 0),
              <[3%nat := Some <$> [1; 3; 5; 7]]> test_memory)
  /\ exists buf,
       payload (<[3%nat := Some <$> [1; 3; 5; 7]]> test_memory)
               (mkMerkleNode 10 (replicate 32 0) 4 (Ptr 3 0)) = Some buf
       /\ Z.of_nat (length buf) = Length (mkMerkleNode 10 (replicate 32 0) 4 (Ptr 3 0))
       /\ load (<[3%nat := Some <$> [1; 3; 5; 7]]> test_memory)
               (Data (mkMerkleNode 10 (replicate 32 0) 4 (Ptr 3 0)))
               (Length (mkMerkleNode 10 (replicate 32 0) 4 (Ptr 3 0))) = Some buf.
Proof.
  assert (construct false (NewExtension (Ptr 1 0) 4) test_memory
          = Returned (mkMerkleNode 10 (replicate 32 0) 4 (Ptr 3 0),
                      <[3%nat := Some <$> [1; 3; 5; 7]]> test_memory)) as H
    by (vm_compute; reflexivity).
  split; [exact H|]. exact (length_is_payload_size _ _ _ _ _ H).
Defined.

(** A readable region stays readable when shortened. *)
Lemma load_prefix (m : memory) (p : pointer) (n k : Z) (cs : list cell) :
  load m p n = Some cs -> 0 <= k <= n ->
  load m p k = Some (take (Z.to_nat k) cs).
Proof.
  unfold load. destruct p as [|b off]; [discriminate|].
  destruct (m !! b) as [bl|]; [|discriminate].
  destruct (Z.leb_spec 0 off); [|discriminate].
  destruct (Z.leb_spec 0 n); [|discriminate].
  destruct (Z.leb_spec (off + n) (Z.of_nat (length bl))); [|discriminate].
  cbn [andb]. intros [= <-] Hk.
  destruct (Z.leb_spec 0 k); [|lia].
  destruct (Z.leb_spec (off + k) (Z.of_nat (length bl))); [|lia].
  cbn [andb]. rewrite take_take. do 2 f_equal. lia.
Qed.

(** On a target with signed [char], a path length of 255 is stored as the
    [Length] -1; the allocation request wraps to [2^64 - 1], [malloc] returns
    [NULL] and the copy has undefined behaviour. *)
Lemma newLeaf_255_signed_char (m : memory) (p : pointer) :
  MerkleNode_newLeaf true p 255 m = Undefined.
Proof.
  destruct (MerkleNode_newLeaf true p 255 m) as [[node m']|] eqn:H; [|reflexivity].
  apply (construct_inv true (NewLeaf p 255)) in H as (Hpos & _).
  vm_compute in Hpos. exfalso. apply Hpos. reflexivity.
Qed.

(** C6, as the code has it. Where [char] is unsigned, [MerkleNode_newLeaf] on
    a readable path of length 255 returns a node with [Length] 255 whose
    payload is that path. With a path of length 256 the constructor does not
    fail, whatever the kind of [char]: the length is stored modulo 256, so it
    returns a node with [Length] 0 and an empty payload.  The two halves are
    independent: each holds in every memory that holds its path. *)
Theorem newLeaf_length_boundary :
  (forall (m : memory) (p255 : pointer) (cs255 : list cell),
     load m p255 255 = Some cs255 ->
     exists node,
       MerkleNode_newLeaf false p255 255 m = Returned (node, <[fresh (dom m) := cs255]> m)
       /\ Length node = 255
       /\ payload (<[fresh (dom m) := cs255]> m) node = Some cs255)
  /\ (forall (sg : bool) (m : memory) (p256 : pointer) (cs256 : list cell),
        load m p256 256 = Some cs256 ->
        exists node,
          MerkleNode_newLeaf sg p256 256 m = Returned (node, <[fresh (dom m) := []]> m)
          /\ Length node = 0
          /\ payload (<[fresh (dom m) := []]> m) node = Some []).
Proof.
  split.
  - intros m p255 cs255 H255.
    exists (built false (NewLeaf p255 255) (Ptr (fresh (dom m)) 0)).
    split; [|split; [reflexivity|]].
    + apply (construct_returns false (NewLeaf p255 255)); [vm_compute; discriminate|exact H255].
    + unfold payload, block_at. cbn. apply lookup_insert_eq.
  - intros sg m p256 cs256 H256.
    exists (built sg (NewLeaf p256 256) (Ptr (fresh (dom m)) 0)).
    assert (ctor_length sg (NewLeaf p256 256) = 0) as Hlen by (destruct sg; reflexivity).
    split; [|split; [exact Hlen|]].
    + apply (construct_returns sg (NewLeaf p256 256)); rewrite Hlen; [lia|].
      apply (load_prefix m p256 256 0 cs256 H256). lia.
    + unfold payload, block_at. cbn. apply lookup_insert_eq.
Qed.

Lemma newLeaf_length_boundary_witness :
  (load (path_memory 255) (Ptr 0 0) 255 = Some (replicate 255 (Some 1))
   /\ exists node,
        MerkleNode_newLeaf false (Ptr 0 0) 255 (path_memory 255)
        = Returned (node, <[fresh (dom (path_memory 255)) := replicate 255 (Some 1)]>
                            (path_memory 255))
        /\ Length node = 255
        /\ payload (<[fresh (dom (path_memory 255)) := replicate 255 (Some 1)]>
                      (path_memory 255)) node
           = Some (replicate 255 (Some 1)))
  /\ (load (path_memory 256) (Ptr 0 0) 256 = Some (replicate 256 (Some 1))
      /\ forall sg, exists node,
           MerkleNode_newLeaf sg (Ptr 0 0) 256 (path_memory 256)
           = Returned (node, <[fresh (dom (path_memory 256)) := []]> (path_memory 256))
           /\ Length node = 0
           /\ payload (<[fresh (dom (path_memory 256)) := []]> (path_memory 256)) node
              = Some []).
Proof.
  assert (load (path_memory 255) (Ptr 0 0) 255 = Some (replicate 255 (Some 1))) as H255
    by (vm_compute; reflexivity).
  assert (load (path_memory 256) (Ptr 0 0) 256 = Some (replicate 256 (Some 1))) as H256
    by (vm_compute; reflexivity).
  split.
  - split; [exact H255|]. exact (proj1 newLeaf_length_boundary _ _ _ H255).
  - split; [exact H256|]. intros sg. exact (proj2 newLeaf_length_boundary sg _ _ _ H256).
Defined.

(** C6 as stated fails twice. With a path of 256 bytes the constructor
    returns a node, of [Length] 0 and empty payload, instead of failing; and
    where [char] is signed a path of 255 bytes does not yield a node. *)
Lemma newLeaf_256_is_accepted :
  (exists node m',
     MerkleNode_newLeaf false (Ptr 0 0) 256 (path_memory 256) = Returned (node, m')
     /\ Length node = 0
     /\ payload m' node = Some [])
  /\ MerkleNode_newLeaf true (Ptr 0 0) 255 (path_memory 255) = Undefined.
Proof.
  split.
  - exists (mkMerkleNode 8 (replicate 32 0) 0 (Ptr 1 0)),
           (<[1%nat := []]> (path_memory 256)).
    vm_compute. repeat split.
  - vm_compute. reflexivity.
Qed.

(** C7, as the code has it. [MerkleNode_newExtension] with a path length of 0
    and a valid pointer does not fail: it returns a dirty Extension node with
    [Length] 0 and an empty payload. *)
Theorem newExtension_empty_path (sg : bool) (m : memory) (nibblePath : pointer) :
  load m nibblePath 0 = Some [] ->
  exists node,
    MerkleNode_newExtension sg nibblePath 0 m = Returned (node, <[fresh (dom m) := []]> m)
    /\ MerkleNode_NodeType node = NodeType_val Extension
    /\ MerkleNode_IsDirty node = true
    /\ Length node = 0
    /\ payload (<[fresh (dom m) := []]> m) node = Some [].
Proof.
  intros Hload.
  exists (built sg (NewExtension nibblePath 0) (Ptr (fresh (dom m)) 0)).
  assert (ctor_length sg (NewExtension nibblePath 0) = 0) as Hlen by (destruct sg; reflexivity).
  split.
  { apply (construct_returns sg (NewExtension nibblePath 0)); rewrite Hlen; [lia|exact Hload]. }
  split; [destruct sg; reflexivity|].
  split; [destruct sg; reflexivity|].
  split; [exact Hlen|].
  unfold payload, block_at. cbn. apply lookup_insert_eq.
Qed.

Lemma newExtension_empty_path_witness :
  load test_memory (Ptr 1 0) 0 = Some []
  /\ exists node,
       MerkleNode_newExtension true (Ptr 1 0) 0 test_memory
       = Returned (node, <[fresh (dom test_memory) := []]> test_memory)
       /\ MerkleNode_NodeType node = NodeType_val Extension
       /\ MerkleNode_IsDirty node = true
       /\ Length node = 0
       /\ payload (<[fresh (dom test_memory) := []]> test_memory) node = Some [].
Proof.
  assert (load test_memory (Ptr 1 0) 0 = Some []) as H by (vm_compute; reflexivity).
  split; [exact H|]. exact (newExtension_empty_path true _ _ H).
Defined.

(** C7 as stated fails: called on the harness's extension path with a path
    length of 0, the constructor returns a node. *)
Lemma newExtension_empty_path_is_accepted :
  MerkleNode_newExtension true (Ptr 1 0) 0 test_memory
  = Returned (mkMerkleNode 10 (replicate 32 0) 0 (Ptr 3 0), <[3%nat := []]> test_memory).
Proof. vm_compute. reflexivity. Qed.

(** C8. Given a bitmap, that is two readable bytes at [nibbles],
    [MerkleNode_newBranch] returns a node whose [Length] is 2 and whose
    payload is a block of exactly those two bytes. *)
Theorem newBranch_payload (sg : bool) (m : memory) (nibbles : pointer) (cs : list cell) :
  load m nibbles 2 = Some cs ->
  exists node m',
    MerkleNode_newBranch sg nibbles m = Returned (node, m')
    /\ Length node = 2
    /\ payload m' node = Some cs
    /\ length cs = 2%nat
    /\ load m' (Data node) 2 = load m nibbles 2.
Proof.
  intros Hload.
  exists (built sg (NewBranch nibbles) (Ptr (fresh (dom m)) 0)), (<[fresh (dom m) := cs]> m).
  assert (ctor_length sg (NewBranch nibbles) = 2) as Hlen by (destruct sg; reflexivity).
  pose proof (load_length _ _ _ _ Hload) as Hcs.
  split.
  { apply (construct_returns sg (NewBranch nibbles)); rewrite Hlen; [lia|exact Hload]. }
  split; [exact Hlen|].
  split; [unfold payload, block_at; cbn; apply lookup_insert_eq|].
  split; [lia|].
  rewrite Hload. unfold load. cbn [Data built]. rewrite lookup_insert_eq.
  destruct (Z.leb_spec (0 + 2) (Z.of_nat (length cs))); [|lia].
  cbn. destruct cs as [|a [|b [|? ?]]]; cbn in Hcs; try lia. reflexivity.
Qed.

Lemma newBranch_payload_witness :
  load test_memory (Ptr 2 0) 2 = Some (Some <$> [105; 105])
  /\ exists node m',
       MerkleNode_newBranch true (Ptr 2 0) test_memory = Returned (node, m')
       /\ Length node = 2
       /\ payload m' node = Some (Some <$> [105; 105])
       /\ length (Some <$> [105; 105] : list cell) = 2%nat
       /\ load m' (Data node) 2 = load test_memory (Ptr 2 0) 2.
Proof.
  assert (load test_memory (Ptr 2 0) 2 = Some (Some <$> [105; 105])) as H
    by (vm_compute; reflexivity).
  split; [exact H|]. exact (newBranch_payload true _ _ _ H).
Defined.

(** ** The node type over the life of a node *)

(** No call into the layer touches the caller's node. *)
Lemma exec_keeps_node (sg : bool) (op : layer_op) (node node' : MerkleNode) (m m' : memory) :
  exec sg op (node, m) = Returned (node', m') -> node' = node.
Proof.
  destruct op as [| |c]; unfold exec, mret, outcome_ret.
  - intros [= <- _]. reflexivity.
  - intros [= <- _]. reflexivity.
  - destruct (construct sg c m) as [[fresh_node m1]|]; cbn; [|discriminate].
    intros [= <- _]. reflexivity.
Qed.

Lemma run_keeps_node (sg : bool) (ops : list layer_op) :
  forall (node node' : MerkleNode) (m m' : memory),
    run sg ops (node, m) = Returned (node', m') -> node' = node.
Proof.
  induction ops as [|op ops IH]; intros node node' m m'; cbn [run].
  - unfold mret, outcome_ret. intros [= <- _]. reflexivity.
  - unfold mbind, outcome_bind.
    destruct (exec sg op (node, m)) as [[node1 m1]|] eqn:Hop; [|discriminate].
    intros Hrun. apply IH in Hrun. apply exec_keeps_node in Hop. congruence.
Qed.

(** C9. [MerkleNode_NodeType] on a node returned by a constructor is the type
    that constructor is for ([Leaf] for [MerkleNode_newLeaf], [Extension] for
    [MerkleNode_newExtension], [Branch] for [MerkleNode_newBranch]), and it is
    still that type after any sequence of calls into the layer. *)
Theorem node_type_is_fixed (sg : bool) (c : ctor_call) (ops : list layer_op)
  (m m1 m2 : memory) (node node' : MerkleNode) :
  construct sg c m = Returned (node, m1) ->
  run sg ops (node, m1) = Returned (node', m2) ->
  MerkleNode_NodeType node = NodeType_val (ctor_type c)
  /\ NodeType_of_val (MerkleNode_NodeType node) = Some (ctor_type c)
  /\ MerkleNode_NodeType node' = MerkleNode_NodeType node.
Proof.
  intros Hc Hrun. apply run_keeps_node in Hrun as ->.
  apply construct_inv in Hc as (_ & -> & _).
  destruct sg, c; repeat split.
Qed.

Lemma node_type_is_fixed_witness :
  construct true (NewBranch (Ptr 2 0)) test_memory
  = Returned (mkMerkleNode 12 (replicate 32 0) 2 (Ptr 3 0),
              <[3%nat := Some <$> [105; 105]]> test_memory)
  /\ run true [CallConstructor (NewLeaf (Ptr 0 0) 3); CallIsDirty; CallNodeType]
         (mkMerkleNode 12 (replicate 32 0) 2 (Ptr 3 0),
          <[3%nat := Some <$> [105; 105]]> test_memory)
     = Returned (mkMerkleNode 12 (replicate 32 0) 2 (Ptr 3 0),
                 <[4%nat := Some <$> [2; 4; 6]]>
                   (<[3%nat := Some <$> [105; 105]]> test_memory))
  /\ MerkleNode_NodeType (mkMerkleNode 12 (replicate 32 0) 2 (Ptr 3 0))
     = NodeType_val (ctor_type (NewBranch (Ptr 2 0)))
  /\ NodeType_of_val (MerkleNode_NodeType (mkMerkleNode 12 (replicate 32 0) 2 (Ptr 3 0)))
     = Some (ctor_type (NewBranch (Ptr 2 0)))
  /\ MerkleNode_NodeType (mkMerkleNode 12 (replicate 32 0) 2 (Ptr 3 0))
     = MerkleNode_NodeType (mkMerkleNode 12 (replicate 32 0) 2 (Ptr 3 0)).
Proof.
  assert (construct true (NewBranch (Ptr 2 0)) test_memory
          = Returned (mkMerkleNode 12 (replicate 32 0) 2 (Ptr 3 0),
                      <[3%nat := Some <$> [105; 105]]> test_memory)) as Hc
    by (vm_compute; reflexivity).
  assert (run true [CallConstructor (NewLeaf (Ptr 0 0) 3); CallIsDirty; CallNodeType]
              (mkMerkleNode 12 (replicate 32 0) 2 (Ptr 3 0),
               <[3%nat := Some <$> [105; 105]]> test_memory)
          = Returned (mkMerkleNode 12 (replicate 32 0) 2 (Ptr 3 0),
                      <[4%nat := Some <$> [2; 4; 6]]>
                        (<[3%nat := Some <$> [105; 105]]> test_memory))) as Hrun
    by (vm_compute; reflexivity).
  split; [exact Hc|]. split; [exact Hrun|].
  exact (node_type_is_fixed _ _ _ _ _ _ _ _ Hc Hrun).
Defined.

(** ** Frame *)

(** C10. Every constructor, [MerkleNode_newExtension] included, returns a
    node whose [Keccak] member is 32 zero bytes; and it only adds a block to
    the memory: every block that was live keeps its contents, so whatever
    could be read at the input pointer before the call reads the same after
    it. *)
Theorem constructors_zero_keccak_keep_input (sg : bool) (c : ctor_call)
  (m m' : memory) (node : MerkleNode) :
  construct sg c m = Returned (node, m') ->
  Keccak node = replicate 32 0
  /\ Z.of_nat (length (Keccak node)) = sizeof_Keccak
  /\ m ⊆ m'
  /\ forall n cs, load m (ctor_input c) n = Some cs -> load m' (ctor_input c) n = Some cs.
Proof.
  intros H. apply construct_inv in H as (_ & -> & cs & _ & _ & ->).
  split; [reflexivity|]. split; [reflexivity|]. split.
  - apply insert_subseteq, not_elem_of_dom, fresh_not_live.
  - intros n cs' Hload. destruct (ctor_input c) as [|b off]; [discriminate|].
    rewrite load_insert_ne; [exact Hload|].
    intros <-. eapply fresh_not_live, load_live, Hload.
Qed.

Lemma constructors_zero_keccak_keep_input_witness :
  construct true (NewExtension (Ptr 1 0) 4) test_memory
  = Returned (mkMerkleNode 10 (replicate 32 0) 4 (Ptr 3 0),
              <[3%nat := Some <$> [1; 3; 5; 7]]> test_memory)
  /\ Keccak (mkMerkleNode 10 (replicate 32 0) 4 (Ptr 3 0)) = replicate 32 0
  /\ Z.of_nat (length (Keccak (mkMerkleNode 10 (replicate 32 0) 4 (Ptr 3 0)))) = sizeof_Keccak
  /\ test_memory ⊆ <[3%nat := Some <$> [1; 3; 5; 7]]> test_memory
  /\ forall n cs,
       load test_memory (ctor_input (NewExtension (Ptr 1 0) 4)) n = Some cs ->
       load (<[3%nat := Some <$> [1; 3; 5; 7]]> test_memory)
            (ctor_input (NewExtension (Ptr 1 0) 4)) n = Some cs.
Proof.
  assert (construct true (NewExtension (Ptr 1 0) 4) test_memory
          = Returned (mkMerkleNode 10 (replicate 32 0) 4 (Ptr 3 0),
                      <[3%nat := Some <$> [1; 3; 5; 7]]> test_memory)) as H
    by (vm_compute; reflexivity).
  split; [exact H|]. exact (constructors_zero_keccak_keep_input _ _ _ _ _ H).
Defined.

(** * Further properties of the constructors *)

Lemma construct_negative_length (sg : bool) (c : ctor_call) (m : memory) :
  ctor_length sg c < 0 -> construct sg c m = Undefined.
Proof.
  intros Hneg. destruct (construct sg c m) as [[node m']|] eqn:H; [|reflexivity].
  apply construct_inv in H as (Hpos & _). lia.
Qed.

Lemma to_byte_periodic (sg : bool) (z k : Z) : to_byte sg (z + 256 * k) = to_byte sg z.
Proof.
  unfold to_byte. destruct sg.
  - replace (z + 256 * k + 128) with (z + 128 + k * 256) by lia.
    rewrite Z.mod_add by lia. reflexivity.
  - replace (z + 256 * k) with (z + k * 256) by lia.
    rewrite Z.mod_add by lia. reflexivity.
Qed.

Lemma to_byte_in_range (sg : bool) (z : Z) :
  0 <= z <= (if sg then 127 else 255) -> to_byte sg z = z.
Proof.
  intros Hz. unfold to_byte. destruct sg.
  - rewrite Z.mod_small by lia. lia.
  - apply Z.mod_small. lia.
Qed.

(** X1. A path is stored verbatim: for a path length from 0 to 127 (to 255
    where [char] is unsigned) and that many readable bytes at the path,
    [MerkleNode_newLeaf] and [MerkleNode_newExtension] return a node whose
    [Length] is the path length and whose payload is a new block holding
    exactly those bytes. *)
Theorem path_stored_verbatim (sg : bool) (m : memory) (nibblePath : pointer)
  (pathLength : Z) (cs : list cell) :
  0 <= pathLength <= (if sg then 127 else 255) ->
  load m nibblePath pathLength = Some cs ->
  (exists node,
     MerkleNode_newLeaf sg nibblePath pathLength m
     = Returned (node, <[fresh (dom m) := cs]> m)
     /\ Length node = pathLength
     /\ Data node = Ptr (fresh (dom m)) 0
     /\ payload (<[fresh (dom m) := cs]> m) node = Some cs)
  /\ (exists node,
        MerkleNode_newExtension sg nibblePath pathLength m
        = Returned (node, <[fresh (dom m) := cs]> m)
        /\ Length node = pathLength
        /\ Data node = Ptr (fresh (dom m)) 0
        /\ payload (<[fresh (dom m) := cs]> m) node = Some cs).
Proof.
  intros Hrange Hload. pose proof (to_byte_in_range sg pathLength Hrange) as Hb.
  split.
  - exists (built sg (NewLeaf nibblePath pathLength) (Ptr (fresh (dom m)) 0)).
    split; [|split; [exact Hb|split; [reflexivity|]]].
    + apply (construct_returns sg (NewLeaf nibblePath pathLength));
        cbn [ctor_length ctor_input]; rewrite Hb; [lia|exact Hload].
    + unfold payload, block_at. cbn. apply lookup_insert_eq.
  - exists (built sg (NewExtension nibblePath pathLength) (Ptr (fresh (dom m)) 0)).
    split; [|split; [exact Hb|split; [reflexivity|]]].
    + apply (construct_returns sg (NewExtension nibblePath pathLength));
        cbn [ctor_length ctor_input]; rewrite Hb; [lia|exact Hload].
    + unfold payload, block_at. cbn. apply lookup_insert_eq.
Qed.

Lemma path_stored_verbatim_witness :
  0 <= 3 <= (if true then 127 else 255)
  /\ load test_memory (Ptr 1 1) 3 = Some (Some <$> [3; 5; 7])
  /\ (exists node,
        MerkleNode_newLeaf true (Ptr 1 1) 3 test_memory
        = Returned (node, <[fresh (dom test_memory) := Some <$> [3; 5; 7]]> test_memory)
        /\ Length node = 3
        /\ Data node = Ptr (fresh (dom test_memory)) 0
        /\ payload (<[fresh (dom test_memory) := Some <$> [3; 5; 7]]> test_memory) node
           = Some (Some <$> [3; 5; 7]))
  /\ (exists node,
        MerkleNode_newExtension true (Ptr 1 1) 3 test_memory
        = Returned (node, <[fresh (dom test_memory) := Some <$> [3; 5; 7]]> test_memory)
        /\ Length node = 3
        /\ Data node = Ptr (fresh (dom test_memory)) 0
        /\ payload (<[fresh (dom test_memory) := Some <$> [3; 5; 7]]> test_memory) node
           = Some (Some <$> [3; 5; 7])).
Proof.
  assert (0 <= 3 <= (if true then 127 else 255)) as Hr by (simpl; lia).
  assert (load test_memory (Ptr 1 1) 3 = Some (Some <$> [3; 5; 7])) as Hl
    by (vm_compute; reflexivity).
  split; [exact Hr|]. split; [exact Hl|].
  exact (path_stored_verbatim true _ _ _ _ Hr Hl).
Defined.

(** X2. The path length is kept modulo 256 only: path lengths that differ by
    a multiple of 256 give the same outcome, node and memory, for
    [MerkleNode_newLeaf] and for [MerkleNode_newExtension]. *)
Theorem path_length_wraps (sg : bool) (m : memory) (nibblePath : pointer) (pathLength k : Z) :
  MerkleNode_newLeaf sg nibblePath (pathLength + 256 * k) m
  = MerkleNode_newLeaf sg nibblePath pathLength m
  /\ MerkleNode_newExtension sg nibblePath (pathLength + 256 * k) m
     = MerkleNode_newExtension sg nibblePath pathLength m.
Proof.
  split.
  - change (construct sg (NewLeaf nibblePath (pathLength + 256 * k)) m
            = construct sg (NewLeaf nibblePath pathLength) m).
    rewrite !construct_unfold. unfold built. cbn [ctor_length ctor_input ctor_type].
    rewrite to_byte_periodic. reflexivity.
  - change (construct sg (NewExtension nibblePath (pathLength + 256 * k)) m
            = construct sg (NewExtension nibblePath pathLength) m).
    rewrite !construct_unfold. unfold built. cbn [ctor_length ctor_input ctor_type].
    rewrite to_byte_periodic. reflexivity.
Qed.

(** X3. Where [char] is signed, a path length whose low byte is 128 or more
    is stored as a negative [Length]; the allocation request then exceeds
    every object size and both path constructors have undefined behaviour,
    whatever the pointer and the memory. *)
Theorem signed_char_long_path (m : memory) (nibblePath : pointer) (pathLength : Z) :
  128 <= pathLength mod 256 ->
  MerkleNode_newLeaf true nibblePath pathLength m = Undefined
  /\ MerkleNode_newExtension true nibblePath pathLength m = Undefined.
Proof.
  intros Hlow.
  assert (to_byte true pathLength < 0) as Hneg.
  { unfold to_byte.
    pose proof (Z.mod_pos_bound pathLength 256).
    replace (pathLength + 128) with (pathLength mod 256 - 128 + (pathLength / 256 + 1) * 256)
      by (pose proof (Z.div_mod pathLength 256); lia).
    rewrite Z.mod_add by lia. rewrite Z.mod_small by lia. lia. }
  split.
  - apply (construct_negative_length true (NewLeaf nibblePath pathLength)). exact Hneg.
  - apply (construct_negative_length true (NewExtension nibblePath pathLength)). exact Hneg.
Qed.

Lemma signed_char_long_path_witness :
  128 <= 200 mod 256
  /\ MerkleNode_newLeaf true (Ptr 0 0) 200 (path_memory 200) = Undefined
  /\ MerkleNode_newExtension true (Ptr 0 0) 200 (path_memory 200) = Undefined.
Proof.
  assert (128 <= 200 mod 256) as H by (vm_compute; discriminate).
  split; [exact H|]. exact (signed_char_long_path _ _ _ H).
Defined.

(** X4. When a constructor returns. Given an input pointer that is null or
    points into a live block, a constructor returns a node exactly when the
    [Length] it stores is not negative and that many bytes are readable at
    the pointer; in every other case (a null pointer, a buffer that ends too
    early, a negative [Length]) the call has undefined behaviour. *)
Theorem construct_returns_iff (sg : bool) (c : ctor_call) (m : memory) :
  null_or_live m (ctor_input c) = true ->
  ((exists node m', construct sg c m = Returned (node, m'))
   <-> (0 <= ctor_length sg c
        /\ exists cs, load m (ctor_input c) (ctor_length sg c) = Some cs))
  /\ ((forall node m', construct sg c m <> Returned (node, m'))
      -> construct sg c m = Undefined).
Proof.
  intros Hlive. split; [split|].
  - intros (node & m' & H). apply construct_inv in H as (Hpos & _ & cs & Hload & _ & _).
    split; [exact Hpos|]. exists cs.
    destruct (ctor_input c) as [|b off]; [discriminate|].
    cbn in Hlive. apply bool_decide_eq_true in Hlive.
    rewrite load_insert_ne in Hload; [exact Hload|].
    intros <-. exact (fresh_not_live m Hlive).
  - intros (Hpos & cs & Hload). eexists _, _.
    exact (construct_returns sg c m cs Hpos Hload).
  - intros Hno. destruct (construct sg c m) as [[node m']|]; [|reflexivity].
    exfalso. exact (Hno node m' eq_refl).
Qed.

Lemma construct_returns_iff_witness :
  null_or_live test_memory (ctor_input (NewBranch (Ptr 0 2))) = true
  /\ (((exists node m', construct true (NewBranch (Ptr 0 2)) test_memory = Returned (node, m'))
       <-> (0 <= ctor_length true (NewBranch (Ptr 0 2))
            /\ exists cs, load test_memory (ctor_input (NewBranch (Ptr 0 2)))
                               (ctor_length true (NewBranch (Ptr 0 2))) = Some cs))
      /\ ((forall node m', construct true (NewBranch (Ptr 0 2)) test_memory <> Returned (node, m'))
          -> construct true (NewBranch (Ptr 0 2)) test_memory = Undefined)).
Proof.
  assert (null_or_live test_memory (ctor_input (NewBranch (Ptr 0 2))) = true) as H
    by (vm_compute; reflexivity).
  split; [exact H|]. exact (construct_returns_iff true _ _ H).
Defined.

(** X5. The payload never aliases. The block a constructor returns in [Data]
    was not live before the call, so it is no buffer the caller could have
    passed in and no payload of a node built earlier: two constructions in a
    row give
    different [Data] pointers, and the second leaves the payload of the first
    node as it was. *)
Theorem payloads_do_not_alias (sg : bool) (c1 c2 : ctor_call) (m m1 m2 : memory)
  (n1 n2 : MerkleNode) :
  construct sg c1 m = Returned (n1, m1) ->
  construct sg c2 m1 = Returned (n2, m2) ->
  (exists b, Data n1 = Ptr b 0 /\ (b ∉ dom m) /\ (b ∈ dom m1))
  /\ Data n1 <> Data n2
  /\ payload m2 n1 = payload m1 n1.
Proof.
  intros H1 H2.
  apply construct_inv in H1 as (_ & -> & cs1 & _ & _ & ->).
  apply construct_inv in H2 as (_ & -> & cs2 & Hload2 & _ & ->).
  set (b1 := fresh (dom m)) in *.
  set (m1 := <[b1 := cs1]> m) in *.
  assert (b1 ∈ dom m1) as Hb1
    by (apply elem_of_dom; unfold m1; rewrite lookup_insert_eq; eauto).
  assert (fresh (dom m1) <> b1) as Hne
    by (intros Heq; apply (fresh_not_live m1); rewrite Heq; exact Hb1).
  split; [exists b1; split; [reflexivity|split; [apply fresh_not_live|exact Hb1]]|].
  split; [cbn; congruence|].
  unfold payload, block_at. cbn. apply lookup_insert_ne. exact Hne.
Qed.

Lemma payloads_do_not_alias_witness :
  construct true (NewLeaf (Ptr 0 0) 3) test_memory
  = Returned (mkMerkleNode 8 (replicate 32 0) 3 (Ptr 3 0),
              <[3%nat := Some <$> [2; 4; 6]]> test_memory)
  /\ construct true (NewLeaf (Ptr 3 0) 3) (<[3%nat := Some <$> [2; 4; 6]]> test_memory)
     = Returned (mkMerkleNode 8 (replicate 32 0) 3 (Ptr 4 0),
                 <[4%nat := Some <$> [2; 4; 6]]>
                   (<[3%nat := Some <$> [2; 4; 6]]> test_memory))
  /\ (exists b, Data (mkMerkleNode 8 (replicate 32 0) 3 (Ptr 3 0)) = Ptr b 0
                /\ (b ∉ dom test_memory)
                /\ (b ∈ dom (<[3%nat := Some <$> [2; 4; 6]]> test_memory)))
  /\ Data (mkMerkleNode 8 (replicate 32 0) 3 (Ptr 3 0))
     <> Data (mkMerkleNode 8 (replicate 32 0) 3 (Ptr 4 0))
  /\ payload (<[4%nat := Some <$> [2; 4; 6]]>
                (<[3%nat := Some <$> [2; 4; 6]]> test_memory))
             (mkMerkleNode 8 (replicate 32 0) 3 (Ptr 3 0))
     = payload (<[3%nat := Some <$> [2; 4; 6]]> test_memory)
               (mkMerkleNode 8 (replicate 32 0) 3 (Ptr 3 0)).
Proof.
  assert (construct true (NewLeaf (Ptr 0 0) 3) test_memory
          = Returned (mkMerkleNode 8 (replicate 32 0) 3 (Ptr 3 0),
                      <[3%nat := Some <$> [2; 4; 6]]> test_memory)) as H1
    by (vm_compute; reflexivity).
  assert (construct true (NewLeaf (Ptr 3 0) 3) (<[3%nat := Some <$> [2; 4; 6]]> test_memory)
          = Returned (mkMerkleNode 8 (replicate 32 0) 3 (Ptr 4 0),
                      <[4%nat := Some <$> [2; 4; 6]]>
                        (<[3%nat := Some <$> [2; 4; 6]]> test_memory))) as H2
    by (vm_compute; reflexivity).
  split; [exact H1|]. split; [exact H2|].
  exact (payloads_do_not_alias _ _ _ _ _ _ _ _ H1 H2).
Defined.

(** X6. The payload is a private copy. After a constructor has returned, a
    write into any block that was live before the call, the input buffer
    among them, leaves the node's payload unchanged. *)
Theorem payload_is_private_copy (sg : bool) (c : ctor_call) (m m' m'' : memory)
  (node : MerkleNode) (b : nat) (off : Z) (cs : list cell) :
  construct sg c m = Returned (node, m') ->
  b ∈ dom m ->
  store m' (Ptr b off) cs = Some m'' ->
  payload m'' node = payload m' node.
Proof.
  intros H Hb Hstore. apply construct_inv in H as (_ & -> & cs0 & _ & _ & ->).
  assert (b <> fresh (dom m)) as Hne by (intros ->; exact (fresh_not_live m Hb)).
  unfold store in Hstore. destruct (_ !! b) as [bl|]; [|discriminate].
  destruct (_ && _); [|discriminate]. injection Hstore as <-.
  unfold payload, block_at. cbn [Data built]. cbn.
  rewrite lookup_insert_ne by exact Hne. reflexivity.
Qed.

Lemma payload_is_private_copy_witness :
  construct true (NewLeaf (Ptr 0 0) 3) test_memory
  = Returned (mkMerkleNode 8 (replicate 32 0) 3 (Ptr 3 0),
              <[3%nat := Some <$> [2; 4; 6]]> test_memory)
  /\ (0%nat ∈ dom test_memory)
  /\ store (<[3%nat := Some <$> [2; 4; 6]]> test_memory) (Ptr 0 1) [Some 9; Some 9]
     = Some (<[0%nat := Some <$> [2; 9; 9]]> (<[3%nat := Some <$> [2; 4; 6]]> test_memory))
  /\ payload (<[0%nat := Some <$> [2; 9; 9]]> (<[3%nat := Some <$> [2; 4; 6]]> test_memory))
             (mkMerkleNode 8 (replicate 32 0) 3 (Ptr 3 0))
     = payload (<[3%nat := Some <$> [2; 4; 6]]> test_memory)
               (mkMerkleNode 8 (replicate 32 0) 3 (Ptr 3 0)).
Proof.
  assert (construct true (NewLeaf (Ptr 0 0) 3) test_memory
          = Returned (mkMerkleNode 8 (replicate 32 0) 3 (Ptr 3 0),
                      <[3%nat := Some <$> [2; 4; 6]]> test_memory)) as H1
    by (vm_compute; reflexivity).
  assert (0%nat ∈ dom test_memory) as H2
    by (apply elem_of_dom; vm_compute; eauto).
  assert (store (<[3%nat := Some <$> [2; 4; 6]]> test_memory) (Ptr 0 1) [Some 9; Some 9]
          = Some (<[0%nat := Some <$> [2; 9; 9]]>
                    (<[3%nat := Some <$> [2; 4; 6]]> test_memory))) as H3
    by (vm_compute; reflexivity).
  split; [exact H1|]. split; [exact H2|]. split; [exact H3|].
  exact (payload_is_private_copy _ _ _ _ _ _ _ _ _ H1 H2 H3).
Defined.

(** * Further properties of the accessors *)

(** X7. The accessors read the low four bits of the header only: two headers
    that differ by a multiple of 16 give the same dirty flag and the same
    tag.  In particular a header byte reads the same as a signed and as an
    unsigned [char]. *)
Theorem accessors_read_low_nibble (h k : Z) (node : MerkleNode) :
  MerkleNode_IsDirty (set_Header (h + 16 * k) node) = MerkleNode_IsDirty (set_Header h node)
  /\ MerkleNode_NodeType (set_Header (h + 16 * k) node) = MerkleNode_NodeType (set_Header h node)
  /\ MerkleNode_IsDirty (set_Header (to_byte true h) node)
     = MerkleNode_IsDirty (set_Header (to_byte false h) node)
  /\ MerkleNode_NodeType (set_Header (to_byte true h) node)
     = MerkleNode_NodeType (set_Header (to_byte false h) node).
Proof.
  assert (forall a j i, 0 <= i < 4 -> Z.testbit (a + 16 * j) i = Z.testbit a i) as Hbit.
  { intros a j i Hi.
    rewrite <- (Z.mod_pow2_bits_low (a + 16 * j) 4 i) by lia.
    rewrite <- (Z.mod_pow2_bits_low a 4 i) by lia.
    change (2 ^ 4) with 16. replace (a + 16 * j) with (a + j * 16) by lia.
    rewrite Z.mod_add by lia. reflexivity. }
  assert (to_byte true h = to_byte false h + 16 * 0
          \/ to_byte true h = to_byte false h + 16 * (-16)) as Hsg.
  { unfold to_byte.
    pose proof (Z.mod_pos_bound h 256). pose proof (Z.mod_pos_bound (h + 128) 256).
    pose proof (Z.div_mod h 256). pose proof (Z.div_mod (h + 128) 256).
    destruct (Z.lt_ge_cases (h mod 256) 128).
    - left. assert ((h + 128) / 256 = h / 256) by nia. lia.
    - right. assert ((h + 128) / 256 = h / 256 + 1) by nia. lia. }
  rewrite !IsDirty_testbit, !NodeType_bits_value. cbn [Header set_Header].
  rewrite !Hbit by lia.
  destruct Hsg as [-> | ->]; rewrite !Hbit by lia; repeat split.
Qed.

(** X8. The tag read from a header is always one of 0, 1, 2, 3, and it is
    the value of no enumerator exactly when bits 1 and 2 of the header are
    both set. *)
Theorem NodeType_out_of_range_iff (node : MerkleNode) :
  0 <= MerkleNode_NodeType node <= 3
  /\ (NodeType_of_val (MerkleNode_NodeType node) = None
      <-> Z.testbit (Header node) 1 = true /\ Z.testbit (Header node) 2 = true).
Proof.
  split; [apply NodeType_range|].
  rewrite NodeType_bits_value.
  destruct (Z.testbit (Header node) 1), (Z.testbit (Header node) 2); cbn;
    split; try discriminate; try tauto; intros [? ?]; discriminate.
Qed.

(** * Printing *)

Lemma string_app_assoc (a b c : string) : (a +:+ b) +:+ c = a +:+ b +:+ c.
Proof.
  induction a as [|x a IH]; [reflexivity|].
  change (String x ((a +:+ b) +:+ c) = String x (a +:+ b +:+ c)).
  rewrite IH. reflexivity.
Qed.

(** What the loop of [print_array] has written after the bytes [vs]. *)
Lemma loop_text_concat (vs : list Z) (acc : string) (last : Z) :
  foldl (fun acc v => acc +:+ printf_x v +:+ ", ") acc vs +:+ printf_x last
  = acc +:+ String.concat ", " (printf_x <$> (vs ++ [last])).
Proof.
  revert acc. induction vs as [|v vs IH]; intros acc; [reflexivity|].
  cbn [foldl]. rewrite IH. rewrite !string_app_assoc.
  change (printf_x <$> ((v :: vs) ++ [last]))
    with (printf_x v :: (printf_x <$> (vs ++ [last]))).
  destruct (printf_x <$> (vs ++ [last])) as [|s l] eqn:Hl.
  - destruct vs; discriminate.
  - reflexivity.
Qed.

(** Reading one element, in terms of the block. *)
Lemma read_byte_returns (uv : pointer -> byte) (m : memory) (b : nat) (o i v : Z) (bl rest : list cell) :
  m !! b = Some bl -> 0 <= o + i ->
  drop (Z.to_nat (o + i)) bl = Some v :: rest ->
  read_byte uv m (Ptr b o) i = Returned v.
Proof.
  intros Hb Hpos Hdrop. unfold read_byte, load. cbn [ptr_add]. rewrite Hb.
  assert (Z.to_nat (o + i) < length bl)%nat as Hlt.
  { destruct (Nat.lt_ge_cases (Z.to_nat (o + i)) (length bl)) as [|Hge]; [assumption|].
    rewrite drop_ge in Hdrop by exact Hge. discriminate. }
  destruct (Z.leb_spec 0 (o + i)); [|lia].
  destruct (Z.leb_spec (o + i + 1) (Z.of_nat (length bl))); [|lia].
  cbn. rewrite Hdrop. reflexivity.
Qed.

Lemma read_byte_inv (uv : pointer -> byte) (m : memory) (b : nat) (o i v : Z) :
  read_byte uv m (Ptr b o) i = Returned v ->
  exists (bl : list cell) (c : cell) (rest : list cell),
    m !! b = Some bl /\ 0 <= o + i /\ drop (Z.to_nat (o + i)) bl = c :: rest.
Proof.
  unfold read_byte, load. cbn [ptr_add]. destruct (m !! b) as [bl|]; [|discriminate].
  destruct (Z.leb_spec 0 (o + i)); [|discriminate]. cbn.
  destruct (Z.leb_spec (o + i + 1) (Z.of_nat (length bl))); [|discriminate].
  destruct (drop (Z.to_nat (o + i)) bl) as [|c rest] eqn:Hdrop; [discriminate|].
  intros _. exists bl, c, rest. auto.
Qed.

(** A byte inside a live block can be read, written or not. *)
Lemma read_byte_in_block (uv : pointer -> byte) (m : memory) (b : nat) (o i : Z)
  (bl : list cell) (c : cell) (rest : list cell) :
  m !! b = Some bl -> 0 <= o + i ->
  drop (Z.to_nat (o + i)) bl = c :: rest ->
  exists v, read_byte uv m (Ptr b o) i = Returned v.
Proof.
  intros Hb Hpos Hdrop. unfold read_byte, load. cbn [ptr_add]. rewrite Hb.
  assert (Z.to_nat (o + i) < length bl)%nat as Hlt.
  { destruct (Nat.lt_ge_cases (Z.to_nat (o + i)) (length bl)) as [|Hge]; [assumption|].
    rewrite drop_ge in Hdrop by exact Hge. discriminate. }
  destruct (Z.leb_spec 0 (o + i)); [|lia].
  destruct (Z.leb_spec (o + i + 1) (Z.of_nat (length bl))); [|lia].
  cbn. rewrite Hdrop. cbn. destruct c as [v|]; eauto.
Qed.

Lemma drop_succ_tail {A : Type} (l : list A) (k : nat) (x : A) (rest : list A) :
  drop k l = x :: rest -> drop (S k) l = rest.
Proof.
  intros H. replace (S k) with (k + 1)%nat by lia.
  rewrite <- drop_drop, H. reflexivity.
Qed.

(** The loop over readable, initialised bytes. *)
Lemma print_array_loop_returns (uv : pointer -> byte) (m : memory) (b : nat) (o : Z) (bl : list cell) (vs : list Z) :
  m !! b = Some bl ->
  forall (i : Z) (out : string) (rest : list cell),
    0 <= o + i ->
    drop (Z.to_nat (o + i)) bl = (Some <$> vs) ++ rest ->
    print_array_loop uv (length vs) (Ptr b o) i m out
    = Returned (foldl (fun acc v => acc +:+ printf_x v +:+ ", ") out vs).
Proof.
  intros Hb. induction vs as [|v vs IH]; intros i out rest Hpos Hdrop; [reflexivity|].
  cbn [length print_array_loop foldl].
  rewrite (read_byte_returns uv m b o i v bl _ Hb Hpos Hdrop).
  cbn. apply (IH (i + 1) _ rest); [lia|].
  replace (Z.to_nat (o + (i + 1))) with (S (Z.to_nat (o + i))) by lia.
  eapply drop_succ_tail. exact Hdrop.
Qed.

(** The loop over readable bytes, written or not, returns. *)
Lemma print_array_loop_readable (uv : pointer -> byte) (m : memory) (b : nat) (o : Z)
  (bl : list cell) (cs : list cell) :
  m !! b = Some bl ->
  forall (i : Z) (out : string) (rest : list cell),
    0 <= o + i ->
    drop (Z.to_nat (o + i)) bl = cs ++ rest ->
    exists out', print_array_loop uv (length cs) (Ptr b o) i m out = Returned out'.
Proof.
  intros Hb. induction cs as [|c cs IH]; intros i out rest Hpos Hdrop.
  - exists out. reflexivity.
  - cbn [length print_array_loop].
    destruct (read_byte_in_block uv m b o i bl c (cs ++ rest) Hb Hpos Hdrop) as [v ->].
    cbn [mbind outcome_bind]. apply (IH (i + 1) _ rest); [lia|].
    replace (Z.to_nat (o + (i + 1))) with (S (Z.to_nat (o + i))) by lia.
    eapply drop_succ_tail. exact Hdrop.
Qed.

(** Conversely, when the loop and the read after it return, the bytes they
    read lie in the block. *)
Lemma print_array_loop_inv (uv : pointer -> byte) (m : memory) (b : nat) (o : Z) (n : nat) :
  forall (i : Z) (out out' : string) (v : Z),
    print_array_loop uv n (Ptr b o) i m out = Returned out' ->
    read_byte uv m (Ptr b o) (i + Z.of_nat n) = Returned v ->
    exists (bl cs rest : list cell),
      m !! b = Some bl /\ 0 <= o + i /\ length cs = S n
      /\ drop (Z.to_nat (o + i)) bl = cs ++ rest.
Proof.
  induction n as [|n IH]; intros i out out' v Hloop Hread.
  - replace (i + Z.of_nat 0) with i in Hread by lia.
    apply read_byte_inv in Hread as (bl & c & rest & Hb & Hpos & Hdrop).
    exists bl, [c], rest. auto.
  - cbn [print_array_loop] in Hloop.
    destruct (read_byte uv m (Ptr b o) i) as [v0|] eqn:Hr0; [|discriminate].
    cbn in Hloop.
    replace (i + Z.of_nat (S n)) with (i + 1 + Z.of_nat n) in Hread by lia.
    destruct (IH _ _ _ _ Hloop Hread) as (bl & cs & rest & Hb & Hpos & Hlen & Hdrop).
    apply read_byte_inv in Hr0 as (bl0 & c0 & rest0 & Hb0 & Hpos0 & Hdrop0).
    assert (bl0 = bl) as ->
      by (pose proof (eq_trans (eq_sym Hb0) Hb) as Heq; injection Heq; auto).
    exists bl, (c0 :: cs), rest. repeat split; [exact Hb|exact Hpos0|cbn; lia|].
    rewrite Hdrop0. cbn. f_equal. rewrite <- Hdrop.
    replace (Z.to_nat (o + (i + 1))) with (S (Z.to_nat (o + i))) by lia.
    symmetry. eapply drop_succ_tail. exact Hdrop0.
Qed.

(** A region of at least one byte, in terms of the block. *)
Lemma load_as_drop (m : memory) (b : nat) (o n : Z) (cs : list cell) :
  0 < n ->
  load m (Ptr b o) n = Some cs
  <-> exists (bl rest : list cell),
        m !! b = Some bl /\ 0 <= o /\ Z.of_nat (length cs) = n
        /\ drop (Z.to_nat o) bl = cs ++ rest.
Proof.
  intros Hn. unfold load. split.
  - destruct (m !! b) as [bl|]; [|discriminate].
    destruct (Z.leb_spec 0 o); [|discriminate].
    destruct (Z.leb_spec 0 n); [|discriminate].
    destruct (Z.leb_spec (o + n) (Z.of_nat (length bl))); [|discriminate].
    cbn. intros [= <-]. exists bl, (drop (Z.to_nat n) (drop (Z.to_nat o) bl)).
    repeat split; [assumption| |].
    + rewrite length_take, length_drop. lia.
    + rewrite take_drop. reflexivity.
  - intros (bl & rest & -> & Ho & Hlen & Hdrop).
    assert (length (drop (Z.to_nat o) bl) = (length cs + length rest)%nat) as Hl
      by (rewrite Hdrop, length_app; reflexivity).
    rewrite length_drop in Hl.
    destruct (Z.leb_spec 0 o); [|lia].
    destruct (Z.leb_spec 0 n); [|lia].
    destruct (Z.leb_spec (o + n) (Z.of_nat (length bl))); [|lia].
    cbn. rewrite Hdrop, <- Hlen, Nat2Z.id, take_app_length. reflexivity.
Qed.

(** [print_array] over readable, initialised bytes. *)
Lemma print_array_closed_form (uv : pointer -> byte) (m : memory) (array : pointer) (length : Z)
  (vs : list Z) (out : string) :
  load m array length = Some (Some <$> vs) ->
  print_array uv array length m out
  = Returned (out +:+ "[" +:+ String.concat ", " (printf_x <$> vs) +:+ "]" +:+ nl).
Proof.
  intros Hload. pose proof (load_length _ _ _ _ Hload) as Hlen.
  rewrite length_fmap in Hlen. unfold print_array.
  destruct (Z.eqb_spec length 0) as [Hz|Hnz].
  - destruct vs; [reflexivity|]. cbn in Hlen. lia.
  - destruct (Z.ltb_spec (length - 1) INT_MIN) as [Hlow|_].
    { unfold INT_MIN in Hlow. lia. }
    destruct array as [|b o]; [discriminate|].
    apply load_as_drop in Hload as (bl & rest & Hb & Ho & _ & Hdrop); [|lia].
    destruct (exists_last (l := vs)) as (init & last & ->).
    { intros ->. cbn in Hlen. lia. }
    rewrite length_app in Hlen. cbn in Hlen.
    rewrite fmap_app, <- app_assoc in Hdrop. cbn [fmap list_fmap app] in Hdrop.
    replace (Z.to_nat (length - 1)) with (List.length init) by lia.
    rewrite (print_array_loop_returns uv m b o bl init Hb 0 _ (Some last :: rest));
      [|lia|rewrite Z.add_0_r; exact Hdrop].
    cbn [mbind outcome_bind].
    rewrite (read_byte_returns uv m b o (length - 1) last bl rest Hb); [|lia|].
    + cbn [mbind outcome_bind mret outcome_ret]. f_equal.
      rewrite <- (string_app_assoc _ (printf_x last)).
      rewrite loop_text_concat. rewrite !string_app_assoc. reflexivity.
    + replace (Z.to_nat (o + (length - 1))) with (Z.to_nat o + List.length init)%nat by lia.
      rewrite <- drop_drop, Hdrop, <- (length_fmap Some init), drop_app_length.
      reflexivity.
Qed.

(** X9. [print_array] on an array of [length] initialised bytes writes an
    opening bracket, the bytes in hexadecimal separated by a comma and a
    space, a closing bracket and a line feed; for [length] 0 that is ["[]"]
    and the line feed. *)
Theorem print_array_output (uv : pointer -> byte) (m : memory) (array : pointer) (length : Z)
  (vs : list Z) (out : string) :
  load m array length = Some (Some <$> vs) ->
  print_array uv array length m out
  = Returned (out +:+ "[" +:+ String.concat ", " (printf_x <$> vs) +:+ "]" +:+ nl).
Proof. apply print_array_closed_form. Qed.

Lemma print_array_output_witness :
  load test_memory (Ptr 2 0) 2 = Some (Some <$> [105; 105])
  /\ print_array (fun _ => 0) (Ptr 2 0) 2 test_memory ""
     = Returned ("" +:+ "[" +:+ String.concat ", " (printf_x <$> [105; 105]) +:+ "]" +:+ nl).
Proof.
  assert (load test_memory (Ptr 2 0) 2 = Some (Some <$> [105; 105])) as H
    by (vm_compute; reflexivity).
  split; [exact H|]. exact (print_array_output _ _ _ _ _ _ H).
Defined.

(** [print_array] over readable bytes, written or not, returns. *)
Lemma print_array_readable (uv : pointer -> byte) (m : memory) (array : pointer)
  (length : Z) (cs : list cell) (out : string) :
  0 < length ->
  load m array length = Some cs ->
  exists out', print_array uv array length m out = Returned out'.
Proof.
  intros Hpos Hload. unfold print_array.
  destruct (Z.eqb_spec length 0); [lia|].
  destruct (Z.ltb_spec (length - 1) INT_MIN) as [Hlow|_].
  { unfold INT_MIN in Hlow. lia. }
  destruct array as [|b o]; [discriminate|].
  apply load_as_drop in Hload as (bl & rest & Hb & Ho & Hlen & Hdrop); [|lia].
  destruct (exists_last (l := cs)) as (init & last & ->).
  { intros ->. cbn in Hlen. lia. }
  rewrite length_app in Hlen. cbn in Hlen.
  rewrite <- app_assoc in Hdrop. cbn [app] in Hdrop.
  replace (Z.to_nat (length - 1)) with (List.length init) by lia.
  destruct (print_array_loop_readable uv m b o bl init Hb 0 (out +:+ "[") (last :: rest))
    as [out1 ->]; [lia|rewrite Z.add_0_r; exact Hdrop|].
  cbn [mbind outcome_bind].
  destruct (read_byte_in_block uv m b o (length - 1) bl last rest Hb) as [v ->]; [lia| |].
  - replace (Z.to_nat (o + (length - 1))) with (Z.to_nat o + List.length init)%nat by lia.
    rewrite <- drop_drop, Hdrop, drop_app_length. reflexivity.
  - cbn [mbind outcome_bind mret outcome_ret]. eauto.
Qed.

(** X10. For a positive [length], [print_array] returns exactly when [length]
    bytes are readable at [array], that is when they all lie in one live
    block; whether they were ever written does not matter.  With a null
    pointer, a dead block or an array that ends before [length] bytes the
    call is undefined. *)
Theorem print_array_returns_iff (uv : pointer -> byte) (m : memory) (array : pointer)
  (length : Z) (out : string) :
  0 < length ->
  ((exists out', print_array uv array length m out = Returned out')
   <-> exists cs : list cell, load m array length = Some cs)
  /\ (load m array length = None -> print_array uv array length m out = Undefined).
Proof.
  intros Hpos.
  assert ((exists out', print_array uv array length m out = Returned out')
          -> exists cs : list cell, load m array length = Some cs) as Hinv.
  { intros (out' & H). unfold print_array in H.
    destruct (Z.eqb_spec length 0); [lia|].
    destruct (Z.ltb_spec (length - 1) INT_MIN); [discriminate|].
    destruct (print_array_loop uv _ array 0 m _) as [out1|] eqn:Hloop; [|discriminate].
    cbn [mbind outcome_bind] in H.
    destruct (read_byte uv m array (length - 1)) as [v|] eqn:Hread; [|discriminate].
    destruct array as [|b o]; [discriminate|].
    replace (length - 1) with (0 + Z.of_nat (Z.to_nat (length - 1))) in Hread by lia.
    destruct (print_array_loop_inv _ _ _ _ _ _ _ _ _ Hloop Hread)
      as (bl & cs & rest & Hb & Ho & Hlen & Hdrop).
    exists cs. apply load_as_drop; [lia|].
    exists bl, rest. rewrite Z.add_0_r in Hdrop, Ho.
    repeat split; [exact Hb|exact Ho|lia|exact Hdrop]. }
  split; [split; [exact Hinv|]|].
  - intros (cs & Hload). exact (print_array_readable uv _ _ _ _ out Hpos Hload).
  - intros Hnone.
    destruct (print_array uv array length m out) as [out'|] eqn:H; [|reflexivity].
    destruct Hinv as (cs & Hload); [eauto|]. rewrite Hnone in Hload. discriminate.
Qed.

Lemma print_array_returns_iff_witness :
  0 < 4
  /\ (((exists out', print_array (fun _ => 0) (Ptr 0 0) 4 test_memory "" = Returned out')
       <-> exists cs : list cell, load test_memory (Ptr 0 0) 4 = Some cs)
      /\ (load test_memory (Ptr 0 0) 4 = None
          -> print_array (fun _ => 0) (Ptr 0 0) 4 test_memory "" = Undefined)).
Proof.
  assert (0 < 4) as H by lia.
  split; [exact H|].
  exact (print_array_returns_iff (fun _ => 0) test_memory (Ptr 0 0) 4 "" H).
Defined.

(** A block fresh from [malloc] prints: each byte shows the unspecified
    value at its address. *)
Example print_array_never_written :
  print_array (fun p => match p with Ptr _ off => 16 + off | NULL => 0 end)
              (Ptr 0 0) 3 {[ 0%nat := [None; Some 5; None] ]} ""
  = Returned ("[10, 5, 12]" +:+ nl).
Proof. vm_compute. reflexivity. Qed.

(** X11. A negative [length] is not rejected: [print_array] skips the loop
    and reads [array[length - 1]], an element before the array.  For an
    array that starts a block, and more generally whenever that element lies
    before the block, the call is undefined. *)
Theorem print_array_negative_length (uv : pointer -> byte) (m : memory) (b : nat) (off length : Z) (out : string) :
  length < 0 ->
  off + length <= 0 ->
  print_array uv (Ptr b off) length m out = Undefined.
Proof.
  intros Hneg Hoff. unfold print_array.
  destruct (Z.eqb_spec length 0); [lia|].
  destruct (length - 1 <? INT_MIN); [reflexivity|].
  replace (Z.to_nat (length - 1)) with 0%nat by lia.
  cbn [print_array_loop mbind outcome_bind mret outcome_ret].
  unfold read_byte, load. cbn [ptr_add].
  destruct (m !! b) as [bl|]; [|reflexivity].
  destruct (Z.leb_spec 0 (off + (length - 1))); [lia|]. reflexivity.
Qed.

Lemma print_array_negative_length_witness :
  -1 < 0 /\ 0 + -1 <= 0 /\ print_array (fun _ => 0) (Ptr 0 0) (-1) test_memory "" = Undefined.
Proof.
  assert (-1 < 0) as H1 by lia. assert (0 + -1 <= 0) as H2 by lia.
  split; [exact H1|]. split; [exact H2|].
  exact (print_array_negative_length (fun _ => 0) test_memory 0 0 (-1) "" H1 H2).
Defined.

(** [%x] of a negative byte: the byte is promoted to [int] with its sign and
    printed as an [unsigned int]. *)
Lemma printf_x_negative_byte (v : Z) :
  -128 <= v < 0 -> printf_x v = "ffffff" +:+ printf_x (v + 256).
Proof.
  intros Hv.
  assert (forallb (fun v => String.eqb (printf_x v) ("ffffff" +:+ printf_x (v + 256)))
                  (seqZ (-128) 128) = true) as Hall by (vm_compute; reflexivity).
  rewrite forallb_forall in Hall. apply String.eqb_eq, Hall.
  apply list_elem_of_In, elem_of_seqZ. lia.
Qed.

(** X12. Bytes are printed sign-extended. In the output of [print_array] a
    byte with a negative value, that is a byte of 0x80 or more on a target
    where [char] is signed, appears as ["ffffff"] followed by the hexadecimal
    of the byte's low eight bits, not as two digits. *)
Theorem print_array_sign_extends (uv : pointer -> byte) (m : memory) (array : pointer) (length : Z)
  (vs : list Z) (out : string) :
  load m array length = Some (Some <$> vs) ->
  Forall (fun v => -128 <= v < 256) vs ->
  print_array uv array length m out
  = Returned (out +:+ "["
              +:+ String.concat ", "
                    ((fun v => if v <? 0 then "ffffff" +:+ printf_x (v + 256) else printf_x v)
                       <$> vs)
              +:+ "]" +:+ nl).
Proof.
  intros Hload Hrange. rewrite (print_array_closed_form uv _ _ _ _ out Hload).
  do 5 f_equal. apply Forall_fmap_ext_1.
  eapply Forall_impl; [exact Hrange|]. intros v Hv. cbn beta in *.
  destruct (Z.ltb_spec v 0); [|reflexivity].
  apply printf_x_negative_byte. lia.
Qed.

Lemma print_array_sign_extends_witness :
  load {[ 0%nat := Some <$> [-128; 105; -1] ]} (Ptr 0 0) 3 = Some (Some <$> [-128; 105; -1])
  /\ Forall (fun v => -128 <= v < 256) [-128; 105; -1]
  /\ print_array (fun _ => 0) (Ptr 0 0) 3 {[ 0%nat := Some <$> [-128; 105; -1] ]} ""
     = Returned ("" +:+ "["
                 +:+ String.concat ", "
                       ((fun v => if v <? 0 then "ffffff" +:+ printf_x (v + 256) else printf_x v)
                          <$> [-128; 105; -1])
                 +:+ "]" +:+ nl).
Proof.
  assert (load {[ 0%nat := Some <$> [-128; 105; -1] ]} (Ptr 0 0) 3
          = Some (Some <$> [-128; 105; -1])) as H1 by (vm_compute; reflexivity).
  assert (Forall (fun v => -128 <= v < 256) [-128; 105; -1]) as H2
    by (repeat constructor; lia).
  split; [exact H1|]. split; [exact H2|].
  exact (print_array_sign_extends _ _ _ _ _ _ H1 H2).
Defined.

Example print_array_sign_extends_text :
  print_array (fun _ => 0) (Ptr 0 0) 3 {[ 0%nat := Some <$> [-128; 105; -1] ]} ""
  = Returned ("[ffffff80, 69, ffffffff]" +:+ nl).
Proof. vm_compute. reflexivity. Qed.

(** * The demonstration harness *)

Lemma load_whole_block (m : memory) (b : nat) (bl : list cell) :
  m !! b = Some bl -> load m (Ptr b 0) (Z.of_nat (length bl)) = Some bl.
Proof.
  intros Hb. unfold load. rewrite Hb.
  destruct (Z.leb_spec 0 (Z.of_nat (length bl))); [|lia].
  destruct (Z.leb_spec (0 + Z.of_nat (length bl)) (Z.of_nat (length bl))); [|lia].
  cbn. rewrite Nat2Z.id, firstn_all. reflexivity.
Qed.

(** What the three test functions share: a local array holding [vs], a node
    built from it, the payload printed, the array gone at the end. *)
Lemma harness_step (uv : pointer -> byte) (sg : bool) (mk : pointer -> ctor_call) (vs : list Z) (m : memory) :
  (forall p, ctor_input (mk p) = p) ->
  (forall p, ctor_length sg (mk p) = Z.of_nat (length vs)) ->
  exists b : nat,
    (b ∉ dom m)
    /\ construct sg (mk (Ptr (fresh (dom m)) 0)) (<[fresh (dom m) := Some <$> vs]> m)
       = Returned (built sg (mk (Ptr (fresh (dom m)) 0)) (Ptr b 0),
                   <[b := Some <$> vs]> (<[fresh (dom m) := Some <$> vs]> m))
    /\ (forall out,
          print_array uv (Ptr b 0) (Z.of_nat (length vs))
                      (<[b := Some <$> vs]> (<[fresh (dom m) := Some <$> vs]> m)) out
          = Returned (out +:+ "[" +:+ String.concat ", " (printf_x <$> vs) +:+ "]" +:+ nl))
    /\ end_of_scope (Ptr (fresh (dom m)) 0)
                    (<[b := Some <$> vs]> (<[fresh (dom m) := Some <$> vs]> m))
       = <[b := Some <$> vs]> m.
Proof.
  intros Hin Hlen.
  set (b0 := fresh (dom m)). set (cs := Some <$> vs : list cell).
  set (m0 := <[b0 := cs]> m). exists (fresh (dom m0)).
  assert (length cs = length vs) as Hcs by apply length_fmap.
  assert (m !! b0 = None) as Hb0 by apply not_elem_of_dom, fresh_not_live.
  assert (fresh (dom m0) <> b0) as Hne.
  { intros Heq. apply (fresh_not_live m0). rewrite Heq.
    apply elem_of_dom. unfold m0. rewrite lookup_insert_eq. eauto. }
  split; [|split; [|split]].
  - intros Hb. apply (fresh_not_live m0). apply elem_of_dom.
    apply elem_of_dom in Hb as [bl Hbl]. exists bl.
    unfold m0. rewrite lookup_insert_ne; [exact Hbl|].
    intros Heq. apply Hne. symmetry. exact Heq.
  - apply construct_returns; rewrite ?Hin, Hlen; [lia|].
    rewrite <- Hcs. apply load_whole_block. unfold m0. apply lookup_insert_eq.
  - intros out. apply print_array_closed_form.
    rewrite <- Hcs. apply load_whole_block. apply lookup_insert_eq.
  - cbn [end_of_scope]. unfold m0.
    rewrite delete_insert_ne by (intros Heq; apply Hne; symmetry; exact Heq).
    rewrite delete_insert_id by exact Hb0. reflexivity.
Qed.

Lemma bind_Returned {A B : Type} (o : outcome A) (k : A -> outcome B) (a : A) :
  o = Returned a -> (o ≫= k) = k a.
Proof. intros ->. reflexivity. Qed.

Lemma test_leaf_runs (sg : bool) (uv : pointer -> byte) (m : memory) (out : string) :
  exists b : nat,
    (b ∉ dom m)
    /\ test_leaf sg uv m out
       = Returned (<[b := Some <$> [2; 4; 6]]> m,
                   out +:+ "leaf.IsDirty: 1" +:+ nl +:+ "leaf.NodeType: 0" +:+ nl
                       +:+ "leaf.Length: 3" +:+ nl +:+ "[2, 4, 6]" +:+ nl).
Proof.
  destruct (harness_step uv sg (fun p => NewLeaf p 3) [2; 4; 6] m)
    as (b & Hb & Hc & Hp & He); [reflexivity|destruct sg; reflexivity|].
  exists b. split; [exact Hb|].
  unfold test_leaf, local_array.
  replace (to_byte sg 2) with 2 by (destruct sg; reflexivity).
  replace (to_byte sg 4) with 4 by (destruct sg; reflexivity).
  replace (to_byte sg 6) with 6 by (destruct sg; reflexivity).
  change (MerkleNode_newLeaf sg ?p ?n ?m0) with (construct sg (NewLeaf p n) m0).
  etransitivity; [exact (bind_Returned _ _ _ Hc)|].
  cbn [Data Length built ctor_length].
  replace (to_byte sg 3) with (Z.of_nat (length [2; 4; 6])) by (destruct sg; reflexivity).
  etransitivity; [exact (bind_Returned _ _ _ (Hp _))|].
  unfold mret, outcome_ret. f_equal. f_equal; [exact He|].
  rewrite !string_app_assoc. f_equal. destruct sg; reflexivity.
Qed.

Lemma test_extension_runs (sg : bool) (uv : pointer -> byte) (m : memory) (out : string) :
  exists b : nat,
    (b ∉ dom m)
    /\ test_extension sg uv m out
       = Returned (<[b := Some <$> [1; 3; 5; 7]]> m,
                   out +:+ "extension.IsDirty: 1" +:+ nl +:+ "extension.NodeType: 1" +:+ nl
                       +:+ "extension.Length: 4" +:+ nl +:+ "[1, 3, 5, 7]" +:+ nl).
Proof.
  destruct (harness_step uv sg (fun p => NewExtension p 4) [1; 3; 5; 7] m)
    as (b & Hb & Hc & Hp & He); [reflexivity|destruct sg; reflexivity|].
  exists b. split; [exact Hb|].
  unfold test_extension, local_array.
  replace (to_byte sg 1) with 1 by (destruct sg; reflexivity).
  replace (to_byte sg 3) with 3 by (destruct sg; reflexivity).
  replace (to_byte sg 5) with 5 by (destruct sg; reflexivity).
  replace (to_byte sg 7) with 7 by (destruct sg; reflexivity).
  etransitivity; [exact (bind_Returned _ _ _ Hc)|].
  cbn [Data Length built ctor_length].
  replace (to_byte sg 4) with (Z.of_nat (length [1; 3; 5; 7])) by (destruct sg; reflexivity).
  etransitivity; [exact (bind_Returned _ _ _ (Hp _))|].
  unfold mret, outcome_ret. f_equal. f_equal; [exact He|].
  rewrite !string_app_assoc. f_equal. destruct sg; reflexivity.
Qed.

Lemma test_branch_runs (sg : bool) (uv : pointer -> byte) (m : memory) (out : string) :
  exists b : nat,
    (b ∉ dom m)
    /\ test_branch sg uv m out
       = Returned (<[b := Some <$> [105; 105]]> m,
                   out +:+ "branch.IsDirty: 1" +:+ nl +:+ "branch.NodeType: 2" +:+ nl
                       +:+ "branch.Length: 2" +:+ nl +:+ "[69, 69]" +:+ nl).
Proof.
  destruct (harness_step uv sg (fun p => NewBranch p) [105; 105] m)
    as (b & Hb & Hc & Hp & He); [reflexivity|destruct sg; reflexivity|].
  exists b. split; [exact Hb|].
  unfold test_branch, local_array.
  replace (to_byte sg 105) with 105 by (destruct sg; reflexivity).
  etransitivity; [exact (bind_Returned _ _ _ Hc)|].
  cbn [Data Length built ctor_length].
  replace (to_byte sg 2) with (Z.of_nat (length [105; 105])) by (destruct sg; reflexivity).
  etransitivity; [exact (bind_Returned _ _ _ (Hp _))|].
  unfold mret, outcome_ret. f_equal. f_equal; [exact He|].
  rewrite !string_app_assoc. f_equal. destruct sg; reflexivity.
Qed.

(** X13. The program as a whole. From any memory and on either kind of
    [char], [main] returns 0 after writing the twelve lines below; its local
    arrays are gone and every block that was live is unchanged, but the three
    payload blocks it allocated are still live: no payload is ever freed. *)
Theorem main_runs_and_leaks (sg : bool) (uv : pointer -> byte) (m : memory) (out : string) :
  exists m' : memory,
    main sg uv m out
    = Returned (0, m',
                out +:+ "leaf.IsDirty: 1" +:+ nl +:+ "leaf.NodeType: 0" +:+ nl
                    +:+ "leaf.Length: 3" +:+ nl +:+ "[2, 4, 6]" +:+ nl
                    +:+ "extension.IsDirty: 1" +:+ nl +:+ "extension.NodeType: 1" +:+ nl
                    +:+ "extension.Length: 4" +:+ nl +:+ "[1, 3, 5, 7]" +:+ nl
                    +:+ "branch.IsDirty: 1" +:+ nl +:+ "branch.NodeType: 2" +:+ nl
                    +:+ "branch.Length: 2" +:+ nl +:+ "[69, 69]" +:+ nl)
    /\ m ⊆ m'
    /\ size m' = (size m + 3)%nat.
Proof.
  destruct (test_leaf_runs sg uv m out) as (b1 & Hb1 & H1).
  set (m1 := <[b1 := Some <$> [2; 4; 6]]> m) in *.
  destruct (test_extension_runs sg uv m1
              (out +:+ "leaf.IsDirty: 1" +:+ nl +:+ "leaf.NodeType: 0" +:+ nl
                   +:+ "leaf.Length: 3" +:+ nl +:+ "[2, 4, 6]" +:+ nl))
    as (b2 & Hb2 & H2).
  set (m2 := <[b2 := Some <$> [1; 3; 5; 7]]> m1) in *.
  destruct (test_branch_runs sg uv m2
              ((out +:+ "leaf.IsDirty: 1" +:+ nl +:+ "leaf.NodeType: 0" +:+ nl
                    +:+ "leaf.Length: 3" +:+ nl +:+ "[2, 4, 6]" +:+ nl)
               +:+ "extension.IsDirty: 1" +:+ nl +:+ "extension.NodeType: 1" +:+ nl
               +:+ "extension.Length: 4" +:+ nl +:+ "[1, 3, 5, 7]" +:+ nl))
    as (b3 & Hb3 & H3).
  exists (<[b3 := Some <$> [105; 105]]> m2).
  apply not_elem_of_dom in Hb1, Hb2, Hb3.
  split; [|split].
  - unfold main.
    etransitivity; [exact (bind_Returned _ _ _ H1)|].
    etransitivity; [exact (bind_Returned _ _ _ H2)|].
    etransitivity; [exact (bind_Returned _ _ _ H3)|].
    unfold mret, outcome_ret. do 2 f_equal. rewrite !string_app_assoc. reflexivity.
  - transitivity m1; [apply insert_subseteq; exact Hb1|].
    transitivity m2; [apply insert_subseteq; exact Hb2|].
    apply insert_subseteq; exact Hb3.
  - rewrite map_size_insert_None by exact Hb3. unfold m2.
    rewrite map_size_insert_None by exact Hb2. unfold m1.
    rewrite map_size_insert_None by exact Hb1. lia.
Qed.

(** X14. Construction followed by printing shows the input. When a
    constructor is given initialised bytes and stores a non-negative
    [Length], printing the new node's payload with its [Length], as the test
    functions do, writes exactly the first [Length] bytes of the input
    buffer. *)
Theorem constructed_payload_prints (sg : bool) (uv : pointer -> byte) (c : ctor_call) (m : memory)
  (vs : list Z) (out : string) :
  0 <= ctor_length sg c ->
  load m (ctor_input c) (ctor_length sg c) = Some (Some <$> vs) ->
  exists node m',
    construct sg c m = Returned (node, m')
    /\ print_array uv (Data node) (Length node) m' out
       = Returned (out +:+ "[" +:+ String.concat ", " (printf_x <$> vs) +:+ "]" +:+ nl).
Proof.
  intros Hpos Hload. eexists _, _. split.
  - exact (construct_returns sg c m _ Hpos Hload).
  - cbn [Data Length built]. apply print_array_closed_form.
    rewrite <- (load_length _ _ _ _ Hload). apply load_whole_block.
    apply lookup_insert_eq.
Qed.

Lemma constructed_payload_prints_witness :
  0 <= ctor_length true (NewExtension (Ptr 1 1) 2)
  /\ load test_memory (ctor_input (NewExtension (Ptr 1 1) 2))
          (ctor_length true (NewExtension (Ptr 1 1) 2)) = Some (Some <$> [3; 5])
  /\ exists node m',
       construct true (NewExtension (Ptr 1 1) 2) test_memory = Returned (node, m')
       /\ print_array (fun _ => 0) (Data node) (Length node) m' ""
          = Returned ("" +:+ "[" +:+ String.concat ", " (printf_x <$> [3; 5]) +:+ "]" +:+ nl).
Proof.
  assert (0 <= ctor_length true (NewExtension (Ptr 1 1) 2)) as H1
    by (vm_compute; discriminate).
  assert (load test_memory (ctor_input (NewExtension (Ptr 1 1) 2))
               (ctor_length true (NewExtension (Ptr 1 1) 2)) = Some (Some <$> [3; 5])) as H2
    by (vm_compute; reflexivity).
  split; [exact H1|]. split; [exact H2|].
  exact (constructed_payload_prints true (fun _ => 0) _ _ _ "" H1 H2).
Defined.
